(** * aliyunpan/file_directory.go: listing, path resolution and tree walk

    A shallow embedding of [file_directory.go].  The Go code talks to a remote
    drive through [client.Fetch] and reports to a caller-supplied visitor;
    both are effects here: every function of the client runs in a small
    monad that threads the state of the remote side, the state of the
    visitor closure, and a log of the calls that were made. *)

From Stdlib Require Import String Ascii List ZArith Bool Lia Permutation.
Import ListNotations.
Local Open Scope string_scope.
Local Open Scope list_scope.
Local Open Scope Z_scope.

(** ** The parts of the Go language and standard library the file uses *)

Module Go.

(** [int64] (and [int] on the 64-bit targets) as [Z], wrapped into
    two's-complement range after every arithmetic operation. *)
Definition min_int64 : Z := - 2 ^ 63.
Definition max_int64 : Z := 2 ^ 63 - 1.
Definition wrap64 (z : Z) : Z := (z + 2 ^ 63) mod 2 ^ 64 - 2 ^ 63.
Definition add64 (a b : Z) : Z := wrap64 (a + b).

(** [len(s)] of a string or a slice, as a Go [int]. *)
Definition len_str (s : string) : Z := Z.of_nat (String.length s).
Definition len {A} (l : list A) : Z := Z.of_nat (List.length l).

(** [a[i]] on a slice: [None] stands for the index-out-of-range panic. *)
Definition index {A} (l : list A) (i : Z) : option A :=
  if i <? 0 then None else nth_error l (Z.to_nat i).

Definition slash : ascii := "/"%char.
Definition dot : ascii := "."%char.

(** [path.IsAbs]: [len(path) > 0 && path[0] == '/']. *)
Definition IsAbs (path : string) : bool :=
  match path with
  | EmptyString => false
  | String c _ => Ascii.eqb c slash
  end.

(** [strings.HasPrefix]. *)
Fixpoint HasPrefix (s prefix : string) : bool :=
  match prefix, s with
  | EmptyString, _ => true
  | String _ _, EmptyString => false
  | String p prefix', String c s' => Ascii.eqb p c && HasPrefix s' prefix'
  end.

Fixpoint rev_string (acc : list ascii) (tail : string) : string :=
  match acc with
  | [] => tail
  | c :: acc' => rev_string acc' (String c tail)
  end.

(** [strings.Split(s, sep)] for a non-empty [sep]: the pieces between the
    non-overlapping occurrences of [sep], found left to right.  [skip]
    counts the bytes of a separator still to be passed over, [cur] is the
    current piece, reversed. *)
Fixpoint split_from (sep : string) (skip : nat) (cur : list ascii)
         (s : string) : list string :=
  match s with
  | EmptyString => [rev_string cur EmptyString]
  | String c s' =>
      match skip with
      | S k => split_from sep k cur s'
      | O =>
          if HasPrefix s sep
          then rev_string cur EmptyString
               :: split_from sep (Nat.pred (String.length sep)) [] s'
          else split_from sep O (c :: cur) s'
      end
  end.

Definition Split (s sep : string) : list string := split_from sep O [] s.

(** [strings.ReplaceAll(s, old, new)] for a non-empty [old]: every
    non-overlapping occurrence, left to right. *)
Fixpoint replace_from (old new : string) (skip : nat) (s : string) : string :=
  match s with
  | EmptyString => EmptyString
  | String c s' =>
      match skip with
      | S k => replace_from old new k s'
      | O =>
          if HasPrefix s old
          then (new ++ replace_from old new (Nat.pred (String.length old)) s')%string
          else String c (replace_from old new O s')
      end
  end.

Definition ReplaceAll (s old new : string) : string := replace_from old new O s.

(** [path.Clean].  The library scans the path one element at a time; an
    empty element and [.] are dropped, [..] removes the element before it
    (and is kept, for a path that is not rooted, when there is none), any
    other element is kept.  [out] is the stack of the elements kept so
    far, the last one first; [dotdot] is how many of them, at the bottom,
    are [..] elements that can no longer be removed. *)
Fixpoint clean_elems (rooted : bool) (elems : list string)
         (out : list string) (dotdot : nat) : list string :=
  match elems with
  | [] => rev out
  | e :: elems' =>
      if (e =? "")%string || (e =? ".")%string then
        clean_elems rooted elems' out dotdot
      else if (e =? "..")%string then
        if (dotdot <? List.length out)%nat then
          clean_elems rooted elems' (tl out) dotdot
        else if rooted then clean_elems rooted elems' out dotdot
        else clean_elems rooted elems' (e :: out) (S (List.length out))
      else clean_elems rooted elems' (e :: out) dotdot
  end.

Definition Clean (path : string) : string :=
  match path with
  | EmptyString => "."
  | String c _ =>
      let rooted := Ascii.eqb c slash in
      let kept := clean_elems rooted (Split path "/") [] O in
      if rooted then ("/" ++ String.concat "/" kept)%string
      else match kept with
           | [] => "."
           | _ => String.concat "/" kept
           end
  end.

End Go.

(** ** Data model *)

(** [FileEntity]: one file or folder of a drive. *)
Record FileEntity : Type := mkFileEntity {
  DriveId : string;
  DomainId : string;
  FileId : string;
  FileName : string;
  FileSize : Z;               (* int64 *)
  FileType : string;          (* "folder" or "file" *)
  CreatedAt : string;
  UpdatedAt : string;
  FileExtension : string;
  UploadId : string;
  ParentFileId : string;
  Crc64Hash : string;
  ContentHash : string;
  ContentHashName : string;
  Path : string;
  Category : string;
  SyncFlag : bool;
  SyncMeta : string
}.

(** The zero value of the struct, as [&FileEntity{...}] leaves the fields it
    does not name. *)
Definition zeroFileEntity : FileEntity :=
  mkFileEntity "" "" "" "" 0 "" "" "" "" "" "" "" "" "" "" "" false "".

(** [fi.Path = p] on the entity a pointer refers to. *)
Definition setPath (p : string) (f : FileEntity) : FileEntity :=
  mkFileEntity (DriveId f) (DomainId f) (FileId f) (FileName f) (FileSize f)
    (FileType f) (CreatedAt f) (UpdatedAt f) (FileExtension f) (UploadId f)
    (ParentFileId f) (Crc64Hash f) (ContentHash f) (ContentHashName f)
    p (Category f) (SyncFlag f) (SyncMeta f).

(** [FileList = []*FileEntity]: a slice of pointers, [None] being [nil]. *)
Definition FileList : Type := list (option FileEntity).

(** [fileEntityResult]: the record of a file on the wire. *)
Record fileEntityResult : Type := mkFileEntityResult {
  r_DriveId : string;
  r_DomainId : string;
  r_FileId : string;
  r_Name : string;
  r_Type : string;
  r_ContentType : string;
  r_CreatedAt : string;
  r_UpdatedAt : string;
  r_FileExtension : string;
  r_MimeType : string;
  r_MimeExtension : string;
  r_Hidden : bool;
  r_Size : Z;                 (* int64 *)
  r_Starred : bool;
  r_Status : string;
  r_UploadId : string;
  r_ParentFileId : string;
  r_Crc64Hash : string;
  r_ContentHash : string;
  r_ContentHashName : string;
  r_DownloadUrl : string;
  r_Url : string;
  r_Category : string;
  r_EncryptMode : string;
  r_PunishFlag : Z;
  r_SyncFlag : bool;
  r_SyncMeta : string
}.

(** [fileListResult]: one page on the wire. *)
Record fileListResult : Type := mkFileListResultWire {
  Items : list (option fileEntityResult);
  r_NextMarker : string
}.

(** [FileListParam]. *)
Record FileListParam : Type := mkFileListParam {
  OrderBy : string;
  OrderDirection : string;
  p_DriveId : string;
  p_ParentFileId : string;
  Limit : Z;                  (* int *)
  Marker : string
}.

(** [FileListResult]: one page of entities; an empty [NextMarker] ends the
    listing. *)
Record FileListResult : Type := mkFileListResult {
  fl_FileList : FileList;
  NextMarker : string
}.

Definition DefaultRootParentFileId : string := "root".
Definition FileOrderByUpdatedAt : string := "updated_at".
Definition FileOrderDirectionDesc : string := "DESC".

(** Modelled from the spec: the constant [PathSeparator] is declared in
    another file of the package; the spec joins a parent path and a child
    name with ["/"]. *)
Definition PathSeparator : string := "/".

(** [NewFileEntityForRootDir]. *)
Definition NewFileEntityForRootDir : FileEntity :=
  mkFileEntity "" "" DefaultRootParentFileId "/" 0 "folder" "" "" "" "" ""
    "" "" "" "/" "" false "".

(** [IsFolder], [IsFile], [IsDriveRootFolder]. *)
Definition IsFolder (f : FileEntity) : bool := (FileType f =? "folder")%string.
Definition IsFile (f : FileEntity) : bool := (FileType f =? "file")%string.
Definition IsDriveRootFolder (f : FileEntity) : bool :=
  (FileId f =? DefaultRootParentFileId)%string.

(** ** Aggregates over a [FileList] *)

(** [TotalSize]: the loop, with [size] the running total. *)
Fixpoint TotalSize_from (size : Z) (fl : FileList) : Z :=
  match fl with
  | [] => size
  | None :: fl' => TotalSize_from size fl'
  | Some f :: fl' => TotalSize_from (Go.add64 size (FileSize f)) fl'
  end.

Definition TotalSize (fl : FileList) : Z := TotalSize_from 0 fl.

(** [Count]: the loop, with the two named results as running counters. *)
Fixpoint Count_from (fileN directoryN : Z) (fl : FileList) : Z * Z :=
  match fl with
  | [] => (fileN, directoryN)
  | None :: fl' => Count_from fileN directoryN fl'
  | Some f :: fl' =>
      if IsFolder f
      then Count_from fileN (Go.add64 directoryN 1) fl'
      else Count_from (Go.add64 fileN 1) directoryN fl'
  end.

Definition Count (fl : FileList) : Z * Z := Count_from 0 0 fl.

(** What the specification speaks of: exact sums and counts. *)
Fixpoint sum_sizes (fl : FileList) : Z :=
  match fl with
  | [] => 0
  | None :: fl' => sum_sizes fl'
  | Some f :: fl' => FileSize f + sum_sizes fl'
  end.

Fixpoint count_if (P : FileEntity -> bool) (fl : FileList) : Z :=
  match fl with
  | [] => 0
  | None :: fl' => count_if P fl'
  | Some f :: fl' => (if P f then 1 else 0) + count_if P fl'
  end.

Definition count_present : FileList -> Z := count_if (fun _ => true).
Definition count_folders : FileList -> Z := count_if IsFolder.
Definition count_others : FileList -> Z := count_if (fun f => negb (IsFolder f)).

(** An entity of the given size and type, for the examples. *)
Definition sized (name type : string) (size : Z) : FileEntity :=
  mkFileEntity "" "" name name size type "" "" "" "" "" "" "" "" name "" false "".

(** ** What the file takes from the rest of the package and its libraries

    [apierror], [apiutil], the JSON decoder, the web token and the HTTP
    client are not part of this file: they are parameters of the
    development.  [World] is the state of everything behind [client.Fetch]
    (the network and the remote drive); a request may change it. *)

(** A value of a [map[string]interface{}] request body. *)
Inductive JValue : Type :=
| JString (s : string)
| JInt (z : Z)
| JBool (b : bool).

(** Request bodies and headers: the entries of the Go map, in the order the
    source writes them. *)
Definition PostData : Type := list (string * JValue).
Definition Header : Type := list (string * string).

Record Platform : Type := mkPlatform {
  World : Type;
  Body : Type;                                   (* []byte of a response *)
  ApiError : Type;                               (* apierror.ApiError *)
  WebToken : Type;
  NewFailedApiError : string -> ApiError;
  NewApiError : Z -> string -> ApiError;
  ApiCodeFileNotFoundCode : Z;
  ParseCommonApiError : Body -> option ApiError;
  (* json.Unmarshal into a fileListResult: the error text, or the value *)
  UnmarshalFileList : Body -> string + fileListResult;
  UtcTime2LocalFormat : string -> string;
  AddCommonHeader : Header -> Header;
  GetAuthorizationStr : WebToken -> string;
  API_URL : string;
  (* client.Fetch: the error text, or the body; and the world afterwards *)
  Fetch : string -> string -> PostData -> Header -> World -> (string + Body) * World
}.

(** A run ends with a value, with a Go panic (a nil dereference or an
    index out of range), or because the model ran out of fuel. *)
Inductive outcome (A : Type) : Type :=
| Done (a : A)
| Panic
| OutOfFuel.
Arguments Done {A} a.
Arguments Panic {A}.
Arguments OutOfFuel {A}.

(** ** The client *)

Section Client.

Variable P : Platform.

(** The state of the visitor closure. *)
Variable VS : Type.

(** [PanClient], as far as this file reads it. *)
Record PanClient : Type := mkPanClient { webToken : WebToken P }.

(** [HandleFileDirectoryFunc]: a Go closure; it reads and updates its own
    state and answers whether the walk goes on.  It is given the entity to
    read: a visitor that writes through the pointer is not modelled. *)
Definition HandleFileDirectoryFunc : Type :=
  Z -> string -> option FileEntity -> option (ApiError P) -> VS -> bool * VS.

(** The calls a run makes, in the order it makes them. *)
Inductive Event : Type :=
| EvFetch (method url : string) (postData : PostData) (header : Header)
| EvHandle (depth : Z) (fdPath : string) (fd : option FileEntity)
           (apierr : option (ApiError P)).

Record St : Type := mkSt {
  world : World P;
  vstate : VS;
  trace : list Event
}.

Definition M (A : Type) : Type := St -> outcome A * St.

Definition ret {A} (a : A) : M A := fun s => (Done a, s).

Definition bind {A B} (c : M A) (k : A -> M B) : M B :=
  fun s =>
    match c s with
    | (Done a, s') => k a s'
    | (Panic, s') => (Panic, s')
    | (OutOfFuel, s') => (OutOfFuel, s')
    end.

Definition panic {A} : M A := fun s => (Panic, s).
Definition outOfFuel {A} : M A := fun s => (OutOfFuel, s).

Notation "x <- c ;; k" := (bind c (fun x => k))
  (at level 61, c at next level, right associativity).
Notation "' pat <- c ;; k" := (bind c (fun x => match x with pat => k end))
  (at level 61, pat pattern, c at next level, right associativity).

(** [client.Fetch(...)]. *)
Definition doFetch (method url : string) (postData : PostData)
           (header : Header) : M (string + Body P) :=
  fun s =>
    let '(r, w') := Fetch P method url postData header (world s) in
    (Done r, mkSt w' (vstate s) (trace s ++ [EvFetch method url postData header])).

(** [handleFileDirectoryFunc(depth, fdPath, fd, apierr)]. *)
Definition callHandle (h : HandleFileDirectoryFunc) (depth : Z)
           (fdPath : string) (fd : option FileEntity)
           (apierr : option (ApiError P)) : M bool :=
  fun s =>
    let '(b, v') := h depth fdPath fd apierr (vstate s) in
    (Done b, mkSt (world s) v' (trace s ++ [EvHandle depth fdPath fd apierr])).

(** [if handleFileDirectoryFunc != nil { ok = handleFileDirectoryFunc(...) }]:
    [ok] keeps its value when there is no visitor. *)
Definition handleIfSet (h : option HandleFileDirectoryFunc) (ok : bool)
           (depth : Z) (fdPath : string) (fd : option FileEntity)
           (apierr : option (ApiError P)) : M bool :=
  match h with
  | Some hf => callHandle hf depth fdPath fd apierr
  | None => ret ok
  end.

(** [createFileEntity]. *)
Definition createFileEntity (f : option fileEntityResult) : option FileEntity :=
  match f with
  | None => None
  | Some f =>
      Some (mkFileEntity (r_DriveId f) (r_DomainId f) (r_FileId f) (r_Name f)
              (r_Size f) (r_Type f)
              (UtcTime2LocalFormat P (r_CreatedAt f))
              (UtcTime2LocalFormat P (r_UpdatedAt f))
              (r_FileExtension f) (r_UploadId f) (r_ParentFileId f)
              (r_Crc64Hash f) (r_ContentHash f) (r_ContentHashName f)
              (r_Name f) (r_Category f) (r_SyncFlag f) (r_SyncMeta f))
  end.

Definition setOrderBy (v : string) (p : FileListParam) : FileListParam :=
  mkFileListParam v (OrderDirection p) (p_DriveId p) (p_ParentFileId p)
    (Limit p) (Marker p).
Definition setOrderDirection (v : string) (p : FileListParam) : FileListParam :=
  mkFileListParam (OrderBy p) v (p_DriveId p) (p_ParentFileId p)
    (Limit p) (Marker p).
Definition setLimit (v : Z) (p : FileListParam) : FileListParam :=
  mkFileListParam (OrderBy p) (OrderDirection p) (p_DriveId p)
    (p_ParentFileId p) v (Marker p).
Definition setMarker (v : string) (p : FileListParam) : FileListParam :=
  mkFileListParam (OrderBy p) (OrderDirection p) (p_DriveId p)
    (p_ParentFileId p) (Limit p) v.

(** The request body of [fileListReq]. *)
Definition listPostData (param : FileListParam) (pFileId : string)
           (limit : Z) : PostData :=
  [ ("drive_id", JString (p_DriveId param));
    ("parent_file_id", JString pFileId);
    ("limit", JInt limit);
    ("all", JBool false);
    ("url_expire_sec", JInt 1600);
    ("image_thumbnail_process", JString "image/resize,w_400/format,jpeg");
    ("image_url_process", JString "image/resize,w_1920/format,jpeg");
    ("video_thumbnail_process", JString "video/snapshot,t_0,f_jpg,ar_auto,w_800");
    ("fields", JString "*");
    ("order_by", JString (OrderBy param));
    ("order_direction", JString (OrderDirection param)) ]
  ++ (if 0 <? Go.len_str (Marker param)
      then [("marker", JString (Marker param))] else []).

(** [fileListReq].  [param] is a pointer and the two order fields are
    written through it: the parameter as the function leaves it is part
    of the result.  The calls to the logger are left out. *)
Definition fileListReq (p : PanClient) (param : FileListParam)
  : M (FileListParam * (option fileListResult * option (ApiError P))) :=
  let header := [("authorization", GetAuthorizationStr P (webToken p))] in
  let fullUrl := (API_URL P ++ "/v2/file/list")%string in
  let pFileId :=
    if (p_ParentFileId param =? "")%string then DefaultRootParentFileId
    else p_ParentFileId param in
  let limit := if Limit param <=? 0 then 100 else Limit param in
  let param :=
    if (OrderBy param =? "")%string then setOrderBy FileOrderByUpdatedAt param
    else param in
  let param :=
    if (OrderDirection param =? "")%string
    then setOrderDirection FileOrderDirectionDesc param
    else param in
  let postData := listPostData param pFileId limit in
  r <- doFetch "POST" fullUrl postData (AddCommonHeader P header) ;;
  match r with
  | inl err => ret (param, (None, Some (NewFailedApiError P err)))
  | inr body =>
      match ParseCommonApiError P body with
      | Some err1 => ret (param, (None, Some err1))
      | None =>
          match UnmarshalFileList P body with
          | inl err2 => ret (param, (None, Some (NewFailedApiError P err2)))
          | inr r => ret (param, (Some r, None))
          end
      end
  end.

(** The loop of [FileList] over [flr.Items]. *)
Fixpoint appendItems (items : list (option fileEntityResult))
         (fileList : FileList) : FileList :=
  match items with
  | [] => fileList
  | None :: items' => appendItems items' fileList
  | Some it :: items' =>
      appendItems items' (fileList ++ [createFileEntity (Some it)])
  end.

(** The method [FileList] of [PanClient]; the plain name is the type's. *)
Definition FileList' (p : PanClient) (param : FileListParam)
  : M (FileListParam * (option FileListResult * option (ApiError P))) :=
  let result := mkFileListResult [] "" in
  '(param, (flr, err)) <- fileListReq p param ;;
  match err with
  | None =>
      match flr with
      | None => panic
      | Some flr =>
          ret (param,
               (Some (mkFileListResult
                        (appendItems (Items flr) (fl_FileList result))
                        (r_NextMarker flr)),
                None))
      end
  | Some _ => ret (param, (Some result, None))
  end.

(** The [for len(result.NextMarker) > 0] loop of [FileListGetAll]; one
    unit of fuel for each turn. *)
Fixpoint morePages (fuel : nat) (p : PanClient) (internalParam : FileListParam)
         (result : FileListResult) (fileList : FileList)
  : M (option FileList * option (ApiError P)) :=
  if 0 <? Go.len_str (NextMarker result) then
    match fuel with
    | O => outOfFuel
    | S fuel' =>
        let internalParam := setMarker (NextMarker result) internalParam in
        '(internalParam, (result, err)) <- FileList' p internalParam ;;
        match err, result with
        | None, Some result =>
            morePages fuel' p internalParam result
              (fileList ++ fl_FileList result)
        | _, _ => ret (Some fileList, None)
        end
    end
  else ret (Some fileList, None).

(** [FileListGetAll].  A [nil] slice is [None]. *)
Definition FileListGetAll (fuel : nat) (p : PanClient) (param : FileListParam)
  : M (option FileList * option (ApiError P)) :=
  let internalParam :=
    mkFileListParam (OrderBy param) (OrderDirection param) (p_DriveId param)
      (p_ParentFileId param) (Limit param) (Marker param) in
  let internalParam :=
    if Limit internalParam <=? 0 then setLimit 100 internalParam
    else internalParam in
  let fileList : FileList := [] in
  '(internalParam, (result, err)) <- FileList' p internalParam ;;
  match err, result with
  | None, Some result =>
      morePages fuel p internalParam result (fileList ++ fl_FileList result)
  | _, _ => ret (None, err)
  end.

(** [apierror.NewApiError(apierror.ApiCodeFileNotFoundCode, ...)]. *)
Definition fileNotFound : ApiError P :=
  NewApiError P (ApiCodeFileNotFoundCode P) "文件不存在".

(** The error of [FileInfoByPath] for a path that is not absolute. *)
Definition notAbsolute : ApiError P :=
  NewFailedApiError P "pathStr必须是绝对路径".

(** The [for _, fileEntity := range fileResult] loop of
    [getFileInfoByPath]: the first child whose name is the segment is
    handed to [descend], the recursive call. *)
Fixpoint scanChildren {R : Type} (descend : FileEntity -> M (option R * option (ApiError P)))
         (pathSlice : list string) (index : Z) (fileResult : FileList)
  : M (option R * option (ApiError P)) :=
  match fileResult with
  | [] => ret (None, Some fileNotFound)
  | None :: _ => panic
  | Some fileEntity :: rest =>
      match Go.index pathSlice index with
      | None => panic
      | Some segment =>
          if (FileName fileEntity =? segment)%string then descend fileEntity
          else scanChildren descend pathSlice index rest
      end
  end.

(** [getFileInfoByPath]; one unit of fuel for each call. *)
Fixpoint getFileInfoByPath (fuel : nat) (p : PanClient) (driveId : string)
         (index : Z) (pathSlice : list string)
         (parentFileInfo : option FileEntity)
  : M (option FileEntity * option (ApiError P)) :=
  match fuel with
  | O => outOfFuel
  | S fuel' =>
      match parentFileInfo with
      | None =>
          let parentFileInfo := NewFileEntityForRootDir in
          if (index =? 0) && (Go.len pathSlice =? 1)
          then ret (Some parentFileInfo, None)
          else getFileInfoByPath fuel' p driveId (Go.add64 index 1) pathSlice
                 (Some parentFileInfo)
      | Some parentFileInfo =>
          if Go.len pathSlice <=? index then ret (Some parentFileInfo, None)
          else
            let fileListParam :=
              mkFileListParam "" "" driveId (FileId parentFileInfo) 0 "" in
            '(fileResult, err) <- FileListGetAll fuel' p fileListParam ;;
            match err with
            | Some e => ret (None, Some e)
            | None =>
                match fileResult with
                | None | Some [] => ret (None, Some fileNotFound)
                | Some fileResult =>
                    scanChildren
                      (fun fileEntity =>
                         getFileInfoByPath fuel' p driveId (Go.add64 index 1)
                           pathSlice (Some fileEntity))
                      pathSlice index fileResult
                end
            end
      end
  end.

(** [FileInfoByPath]. *)
Definition FileInfoByPath (fuel : nat) (p : PanClient) (driveId pathStr : string)
  : M (option FileEntity * option (ApiError P)) :=
  let pathStr := if (pathStr =? "")%string then "/" else pathStr in
  if negb (Go.IsAbs pathStr) then ret (None, Some notAbsolute)
  else
    let pathStr := if 1 <? Go.len_str pathStr then Go.Clean pathStr else pathStr in
    let resolve (pathSlice : list string) :=
      '(fileInfo, error) <- getFileInfoByPath fuel p driveId 0 pathSlice None ;;
      ret (option_map (setPath pathStr) fileInfo, error) in
    if (pathStr =? "/")%string then resolve [""]
    else
      let pathSlice := Go.Split pathStr PathSeparator in
      match Go.index pathSlice 0 with
      | None => panic
      | Some first =>
          if negb (first =? "")%string then ret (None, Some notAbsolute)
          else resolve pathSlice
      end.

(** The [for _, fi := range r] loop of [recurseList]; [descend] is the
    recursive call, [fld] the accumulator behind the pointer.  In the
    folder branch the answer of the visitor is assigned to [ok] and then
    replaced by the result of the recursive call. *)
Fixpoint recurseLoop (descend : FileEntity -> FileList -> M (bool * FileList))
         (folderInfo : FileEntity) (depth : Z)
         (h : option HandleFileDirectoryFunc) (r : FileList) (fld : FileList)
  : M (bool * FileList) :=
  match r with
  | [] => ret (true, fld)
  | None :: _ => panic
  | Some fi :: rest =>
      let fi :=
        setPath (Go.ReplaceAll
                   (Path folderInfo ++ PathSeparator ++ FileName fi)%string
                   "//" "/") fi in
      let fld := fld ++ [Some fi] in
      '(ok, fld) <-
        (if IsFolder fi then
           _ <- handleIfSet h true depth (Path fi) (Some fi) None ;;
           descend fi fld
         else
           ok <- handleIfSet h true depth (Path fi) (Some fi) None ;;
           ret (ok, fld)) ;;
      if negb ok then ret (false, fld)
      else recurseLoop descend folderInfo depth h rest fld
  end.

(** [recurseList]; one unit of fuel for each call.  The result carries
    the accumulator [*fld] as the call leaves it. *)
Fixpoint recurseList (fuel : nat) (p : PanClient) (driveId : string)
         (folderInfo : FileEntity) (depth : Z)
         (h : option HandleFileDirectoryFunc) (fld : FileList)
  : M (bool * FileList) :=
  match fuel with
  | O => outOfFuel
  | S fuel' =>
      let flp := mkFileListParam "" "" driveId (FileId folderInfo) 0 "" in
      '(r, apiError) <- FileListGetAll fuel' p flp ;;
      match apiError with
      | Some e =>
          _ <- handleIfSet h true depth (Path folderInfo) None (Some e) ;;
          ret (false, fld)
      | None =>
          recurseLoop
            (fun fi fld => recurseList fuel' p driveId fi (Go.add64 depth 1) h fld)
            folderInfo depth h
            (match r with Some r => r | None => [] end) fld
      end
  end.

(** [FilesDirectoriesRecurseList].  The result is [None] for a [nil]
    slice. *)
Definition FilesDirectoriesRecurseList (fuel : nat) (p : PanClient)
           (driveId path : string) (h : option HandleFileDirectoryFunc)
  : M (option FileList) :=
  '(targetFileInfo, er) <- FileInfoByPath fuel p driveId path ;;
  match er with
  | Some e =>
      _ <- handleIfSet h true 0 path None (Some e) ;;
      ret None
  | None =>
      match targetFileInfo with
      | None => panic
      | Some targetFileInfo =>
          if IsFolder targetFileInfo then
            _ <- handleIfSet h true 0 path (Some targetFileInfo) None ;;
            '(ok, fld) <- recurseList fuel p driveId targetFileInfo 1 h [] ;;
            if negb ok then ret None else ret (Some fld)
          else
            _ <- handleIfSet h true 0 path (Some targetFileInfo) None ;;
            ret (Some [Some targetFileInfo])
      end
  end.

(** The visitor calls of a trace, in order. *)
Definition isHandle (e : Event) : bool :=
  match e with EvHandle _ _ _ _ => true | EvFetch _ _ _ _ => false end.
Definition isFetch (e : Event) : bool :=
  match e with EvFetch _ _ _ _ => true | EvHandle _ _ _ _ => false end.
Definition visits (t : list Event) : list Event := filter isHandle t.
Definition requests (t : list Event) : list Event := filter isFetch t.

End Client.

Arguments EvFetch {P} method url postData header.
Arguments EvHandle {P} depth fdPath fd apierr.
Arguments mkSt {P VS} world vstate trace.
Arguments world {P VS} s.
Arguments vstate {P VS} s.
Arguments trace {P VS} s.
Arguments visits {P} t.
Arguments requests {P} t.
Arguments mkPanClient {P} webToken.
Arguments HandleFileDirectoryFunc P VS : clear implicits.
Arguments ret {P VS A} a.
Arguments bind {P VS A B} c k.
Arguments doFetch {P VS} method url postData header.
Arguments callHandle {P VS} h depth fdPath fd apierr.
Arguments handleIfSet {P VS} h ok depth fdPath fd apierr.
Arguments fileListReq {P VS} p param.
Arguments FileList' {P VS} p param.
Arguments morePages {P VS} fuel p internalParam result fileList.
Arguments FileListGetAll {P VS} fuel p param.
Arguments scanChildren {P VS R} descend pathSlice index fileResult.
Arguments getFileInfoByPath {P VS} fuel p driveId index pathSlice parentFileInfo.
Arguments FileInfoByPath {P VS} fuel p driveId pathStr.
Arguments recurseLoop {P VS} descend folderInfo depth h r fld.
Arguments recurseList {P VS} fuel p driveId folderInfo depth h fld.
Arguments FilesDirectoriesRecurseList {P VS} fuel p driveId path h.

(** ** What the properties speak of *)

(** The parameter of the first request of [FileListGetAll]. *)
Definition firstParam (param : FileListParam) : FileListParam :=
  if Limit param <=? 0 then setLimit 100 param else param.

(** The path [FileInfoByPath] resolves and writes into the entity it
    returns: ["/"] for the empty path, the cleaned path when it is longer
    than one byte. *)
Definition normalised (pathStr : string) : string :=
  let pathStr := if (pathStr =? "")%string then "/" else pathStr in
  if 1 <? Go.len_str pathStr then Go.Clean pathStr else pathStr.

#[local] Set Warnings "-register-all".

(** The part of a drive below a folder: every node carries the entity the
    lister returns for it, and the nodes listed in it, in listing order. *)
Inductive Tree : Type :=
| Node (entity : FileEntity) (children : list Tree).

Definition label (t : Tree) : FileEntity :=
  match t with Node e _ => e end.

Definition children (t : Tree) : list Tree :=
  match t with Node _ kids => kids end.

Fixpoint height (t : Tree) : nat :=
  match t with
  | Node _ kids => S (list_max (map height kids))
  end.

(** The path of a child, in the words of the specification: the path of
    the parent, ["/"] and the name of the child, with doubled slashes
    collapsed. *)
Definition joinPath (parent name : string) : string :=
  Go.ReplaceAll (parent ++ "/" ++ name)%string "//" "/".

(** Depth-first pre-order of a tree listed in the folder at [parentPath]:
    the node with its path, then its children, each with all that is below
    it, in listing order. *)
Fixpoint preorder (parentPath : string) (t : Tree) : list FileEntity :=
  match t with
  | Node e kids =>
      let path := joinPath parentPath (FileName e) in
      setPath path e :: flat_map (preorder path) kids
  end.

(** What the walk below the folder at [parentPath] tells a visitor, in
    order: the depth and the entity of every node, a node before what is
    below it, the children of a folder one level deeper. *)
Fixpoint visitsBelow (depth : Z) (parentPath : string) (t : Tree)
  : list (Z * FileEntity) :=
  match t with
  | Node e kids =>
      let path := joinPath parentPath (FileName e) in
      (depth, setPath path e)
        :: flat_map (visitsBelow (Go.add64 depth 1) path) kids
  end.

Section WalkSpec.

Variable P : Platform.
Variable VS : Type.

(** The call of the visitor for an entity at a depth: its path, the entity
    and no error. *)
Definition handleCall (c : Z * FileEntity) : Event P :=
  EvHandle (fst c) (Path (snd c)) (Some (snd c)) None.

(** A visitor that lets the walk go on: there is none, or it answers
    [true] whatever it is called with. *)
Definition continuing (h : option (HandleFileDirectoryFunc P VS)) : Prop :=
  match h with
  | None => True
  | Some hf => forall d pth fd err v, fst (hf d pth fd err v) = true
  end.

(** The calls a walk makes: none when there is no visitor. *)
Definition calls (h : option (HandleFileDirectoryFunc P VS))
           (evs : list (Event P)) : list (Event P) :=
  match h with
  | Some _ => evs
  | None => []
  end.

(** A computation is quiet when it never calls the visitor: the state of
    the visitor and the visitor calls of the trace are as before,
    however the run ends. *)
Definition quiet (s s' : St P VS) : Prop :=
  vstate s' = vstate s /\ visits (trace s') = visits (trace s).

Definition Quiet {A} (c : M P VS A) : Prop := forall s, quiet s (snd (c s)).

(** [inv] is a condition on the remote side that requests preserve (the
    link is up, the drive is not being changed); [pageFuel] is enough fuel
    for the pages of any one folder. *)
Variable inv : World P -> Prop.
Variable pageFuel : nat.
Variable p : PanClient P.
Variable driveId : string.

(** Listing the folder [e] succeeds and gives [kids], in this order. *)
Definition listsAs (e : FileEntity) (kids : list FileEntity) : Prop :=
  forall (fuel : nat) (s : St P VS),
    (pageFuel <= fuel)%nat ->
    inv (world s) ->
    exists s',
      FileListGetAll fuel p (mkFileListParam "" "" driveId (FileId e) 0 "") s
      = (Done (Some (map Some kids), None), s')
      /\ inv (world s').

(** The remote side serves the tree [t]: every folder of [t] lists as its
    children, and only folders have children. *)
Fixpoint served (t : Tree) : Prop :=
  match t with
  | Node e kids =>
      if IsFolder e then
        listsAs e (map label kids)
        /\ (fix all (l : list Tree) : Prop :=
              match l with
              | [] => True
              | k :: l' => served k /\ all l'
              end) kids
      else kids = []
  end.

End WalkSpec.

Arguments quiet {P VS} s s'.
Arguments handleCall {P} c.
Arguments continuing {P VS} h.
Arguments calls {P VS} h evs.
Arguments Quiet P VS {A} c.

(** ** A small remote drive, for the examples

    [/d] is a folder that lists the folder [A] and then the file [B]; [A]
    lists the file [x].  [/big] is a folder served in two pages, and the
    server answers a listing of [/locked] with its error envelope. *)

Module Demo.

Record apiError : Type := mkApiError { Code : Z; Err : string }.

Inductive body : Type :=
| ErrorEnvelope (e : apiError)
| ListJson (r : fileListResult)
| Garbled.

(** The link either stays up or goes down after so many requests. *)
Inductive link : Type :=
| Up
| DownAfter (n : nat).

Definition item (id name type parent : string) (size : Z) : fileEntityResult :=
  mkFileEntityResult "drive" "" id name type "" "2021-10-01T08:00:00.000Z"
    "2021-10-02T08:00:00.000Z" "" "" "" false size false "available" ""
    parent "" "" "" "" "" "" "" 0 false "".

Definition field (key : string) (d : PostData) : string :=
  match find (fun kv => (fst kv =? key)%string) d with
  | Some (_, JString s) => s
  | _ => ""
  end.

Definition folder_page (parent marker : string) : body :=
  if (parent =? "root")%string then
    ListJson (mkFileListResultWire
                [Some (item "d1" "d" "folder" "root" 0);
                 Some (item "g1" "big" "folder" "root" 0);
                 Some (item "k1" "locked" "folder" "root" 0)] "")
  else if (parent =? "d1")%string then
    ListJson (mkFileListResultWire
                [Some (item "a1" "A" "folder" "d1" 0);
                 Some (item "b1" "B" "file" "d1" 20)] "")
  else if (parent =? "a1")%string then
    ListJson (mkFileListResultWire [Some (item "x1" "x" "file" "a1" 7)] "")
  else if (parent =? "g1")%string then
    if (marker =? "")%string then
      ListJson (mkFileListResultWire
                  [Some (item "f1" "one" "file" "g1" 1);
                   Some (item "f2" "two" "file" "g1" 2)] "m1")
    else if (marker =? "m1")%string then
      ListJson (mkFileListResultWire [Some (item "f3" "three" "file" "g1" 3)] "")
    else Garbled
  else if (parent =? "k1")%string then
    ErrorEnvelope (mkApiError 403 "ForbiddenNoPermission.File")
  else ListJson (mkFileListResultWire [] "").

Definition fetch (method url : string) (d : PostData) (h : Header) (w : link)
  : (string + body) * link :=
  match w with
  | Up => (inr (folder_page (field "parent_file_id" d) (field "marker" d)), Up)
  | DownAfter O => (inl "dial tcp: connection refused", DownAfter O)
  | DownAfter (S n) =>
      (inr (folder_page (field "parent_file_id" d) (field "marker" d)),
       DownAfter n)
  end.

Definition drive : Platform :=
  mkPlatform link body apiError string
    (mkApiError 999)
    mkApiError
    12
    (fun b => match b with ErrorEnvelope e => Some e | _ => None end)
    (fun b => match b with
              | ListJson r => inr r
              | _ => inl "invalid character in response"
              end)
    (fun t => t)
    (fun h => h)
    (fun t => ("Bearer " ++ t)%string)
    "https://api.example.test"
    fetch.

Definition client : PanClient drive := mkPanClient (P := drive) "token".

(** A visitor that counts its invocations and stops the walk at the
    [k]-th. *)
Definition stopAt (k : nat) : HandleFileDirectoryFunc drive nat :=
  fun _ _ _ _ n => (negb (S n =? k)%nat, S n).

(** A visitor that never stops the walk. *)
Definition goOn : HandleFileDirectoryFunc drive nat :=
  fun _ _ _ _ n => (true, S n).

Definition start (w : link) : St drive nat := mkSt (P := drive) w O [].

(** The entities of the drive, as the lister returns them. *)
Definition entity (id name type parent : string) (size : Z) : FileEntity :=
  match createFileEntity drive (Some (item id name type parent size)) with
  | Some e => e
  | None => zeroFileEntity
  end.

Definition eA : FileEntity := setPath "/d/A" (entity "a1" "A" "folder" "d1" 0).
Definition eB : FileEntity := setPath "/d/B" (entity "b1" "B" "file" "d1" 20).
Definition ex : FileEntity := setPath "/d/A/x" (entity "x1" "x" "file" "a1" 7).
Definition ed : FileEntity := setPath "/d" (entity "d1" "d" "folder" "root" 0).

(** What a visitor was called with: depth and path. *)
Definition called (e : Event drive) : option (Z * string) :=
  match e with
  | EvHandle depth fdPath _ _ => Some (depth, fdPath)
  | EvFetch _ _ _ _ => None
  end.

(** The listing parameter of a folder, as a caller builds it and as
    [fileListReq] leaves it. *)
Definition listing (parent : string) : FileListParam :=
  mkFileListParam "" "" "drive" parent 0 "".

Definition sent (parent : string) : FileListParam :=
  mkFileListParam "updated_at" "DESC" "drive" parent 0 "".

(** The tree below [/d]. *)
Definition treeA : Tree :=
  Node (entity "a1" "A" "folder" "d1" 0)
       [Node (entity "x1" "x" "file" "a1" 7) []].

Definition treeB : Tree := Node (entity "b1" "B" "file" "d1" 20) [].

Definition linkUp (w : link) : Prop := w = Up.

End Demo.

(** ** The rest of the file, and what its properties speak of *)

(** The value of a key in a request body. *)
Definition lookupField (key : string) (d : PostData) : option JValue :=
  option_map snd (find (fun kv => (fst kv =? key)%string) d).

(** A listing parameter with the defaults of the two order fields
    written in, as [fileListReq] leaves it behind the pointer. *)
Definition withOrderDefaults (param : FileListParam) : FileListParam :=
  let param :=
    if (OrderBy param =? "")%string then setOrderBy FileOrderByUpdatedAt param
    else param in
  if (OrderDirection param =? "")%string
  then setOrderDirection FileOrderDirectionDesc param
  else param.

Definition setParentFileId (v : string) (p : FileListParam) : FileListParam :=
  mkFileListParam (OrderBy p) (OrderDirection p) (p_DriveId p) v (Limit p)
    (Marker p).



(** A list without its nil entries. *)
Definition present (fl : FileList) : FileList :=
  filter (fun x => match x with Some _ => true | None => false end) fl.

(** The first entity of a listing with the given name. *)
Fixpoint firstNamed (name : string) (l : FileList) : option FileEntity :=
  match l with
  | [] => None
  | None :: l' => firstNamed name l'
  | Some e :: l' =>
      if (FileName e =? name)%string then Some e else firstNamed name l'
  end.

(** Whether a string holds two slashes in a row. *)
Fixpoint hasDoubleSlash (s : string) : bool :=
  match s with
  | String a ((String b _) as s') =>
      (Ascii.eqb a Go.slash && Ascii.eqb b Go.slash) || hasDoubleSlash s'
  | _ => false
  end.

(** The records of a page that are not nil, as entities. *)
Definition entitiesOf (P : Platform) (items : list (option fileEntityResult))
  : FileList :=
  flat_map (fun it => match it with
                      | Some r => [createFileEntity P (Some r)]
                      | None => []
                      end) items.

Section ById.

Variable P : Platform.
Variable VS : Type.

(** [json.Unmarshal] into a [fileEntityResult]: the error text, or the
    value. *)
Variable UnmarshalFileEntity : Body P -> string + fileEntityResult.

(** [FileInfoById].  The calls to the logger are left out. *)
Definition FileInfoById (p : PanClient P) (driveId fileId : string)
  : M P VS (option FileEntity * option (ApiError P)) :=
  let header := [("authorization", GetAuthorizationStr P (webToken P p))] in
  let fullUrl := (API_URL P ++ "/v2/file/get")%string in
  let pFileId :=
    if (fileId =? "")%string then DefaultRootParentFileId else fileId in
  let postData :=
    [ ("drive_id", JString driveId); ("file_id", JString pFileId) ] in
  bind (doFetch "POST" fullUrl postData (AddCommonHeader P header))
    (fun r =>
       match r with
       | inl err => ret (None, Some (NewFailedApiError P err))
       | inr body =>
           match ParseCommonApiError P body with
           | Some err1 => ret (None, Some err1)
           | None =>
               match UnmarshalFileEntity body with
               | inl err2 => ret (None, Some (NewFailedApiError P err2))
               | inr r => ret (createFileEntity P (Some r), None)
               end
           end
       end).

(** The pages that follow a page: [Pages p ip result s pages s'] when,
    after [result] was fetched with the parameter [ip] and left the state
    [s], following the markers fetches [pages], in this order, and ends
    in [s'] with a page whose marker is empty. *)
Inductive Pages (p : PanClient P)
  : FileListParam -> FileListResult -> St P VS -> list FileList -> St P VS -> Prop :=
| Pages_last ip result s :
    NextMarker result = "" ->
    Pages p ip result s [] s
| Pages_more ip result s ip' result' s1 rest s2 :
    NextMarker result <> "" ->
    FileList' p (setMarker (NextMarker result) ip) s
    = (Done (ip', (Some result', None)), s1) ->
    Pages p ip' result' s1 rest s2 ->
    Pages p ip result s (fl_FileList result' :: rest) s2.

End ById.

Arguments FileInfoById {P VS} UnmarshalFileEntity p driveId fileId.
Arguments Pages {P VS} p _ _ _ _ _.
Arguments Pages_last {P VS} p ip result s _.
Arguments Pages_more {P VS} p ip result s ip' result' s1 rest s2 _ _ _.

(** More of the small drive: the entities of the root folder and of
    [/big], and a decoder for the single-file call, which this drive
    does not serve. *)

Module DemoMore.

Import Demo.

Definition eBig : FileEntity := entity "g1" "big" "folder" "root" 0.
Definition eOne : FileEntity := entity "f1" "one" "file" "g1" 1.
Definition eTwo : FileEntity := entity "f2" "two" "file" "g1" 2.
Definition eThree : FileEntity := entity "f3" "three" "file" "g1" 3.

Definition rootListing : FileList :=
  [Some (entity "d1" "d" "folder" "root" 0); Some eBig;
   Some (entity "k1" "locked" "folder" "root" 0)].

Definition bigListing : FileList := [Some eOne; Some eTwo; Some eThree].

Definition noEntity (b : Body drive) : string + fileEntityResult :=
  inl "json: cannot unmarshal object".

End DemoMore.

(** * Properties *)

(** ** [int64] arithmetic *)

Module GoFacts.

Ltac int64_consts :=
  unfold Go.min_int64, Go.max_int64, Go.wrap64 in *;
  change (2 ^ 63) with 9223372036854775808 in *;
  change (2 ^ 64) with 18446744073709551616 in *.

Lemma wrap64_small (z : Z) :
  Go.min_int64 <= z <= Go.max_int64 -> Go.wrap64 z = z.
Proof.
  intros Hz. int64_consts. rewrite Z.mod_small; lia.
Qed.

Lemma wrap64_add_l (a b : Z) : Go.wrap64 (Go.wrap64 a + b) = Go.wrap64 (a + b).
Proof.
  unfold Go.wrap64. f_equal.
  replace ((a + 2 ^ 63) mod 2 ^ 64 - 2 ^ 63 + b + 2 ^ 63)
    with ((a + 2 ^ 63) mod 2 ^ 64 + b) by lia.
  rewrite Z.add_mod_idemp_l by (int64_consts; lia). f_equal. lia.
Qed.

Lemma wrap64_range (z : Z) :
  Go.min_int64 <= Go.wrap64 z <= Go.max_int64.
Proof.
  int64_consts.
  pose proof (Z.mod_pos_bound (z + 9223372036854775808) 18446744073709551616
                ltac:(lia)).
  lia.
Qed.

End GoFacts.

(** ** [TotalSize] and [Count] *)

Section Aggregates.

Lemma TotalSize_from_wrap (fl : FileList) :
  forall size : Z,
    TotalSize_from (Go.wrap64 size) fl = Go.wrap64 (size + sum_sizes fl).
Proof.
  induction fl as [|[f|] fl IH]; intros size; cbn [TotalSize_from sum_sizes].
  - now rewrite Z.add_0_r.
  - unfold Go.add64. rewrite GoFacts.wrap64_add_l, IH. f_equal. lia.
  - apply IH.
Qed.

Lemma count_if_bounds (Q : FileEntity -> bool) (fl : FileList) :
  0 <= count_if Q fl <= Go.len fl.
Proof.
  unfold Go.len. induction fl as [|[f|] fl IH]; simpl length.
  - cbn. lia.
  - cbn [count_if]. destruct (Q f); lia.
  - cbn [count_if]. lia.
Qed.

Lemma count_present_split (fl : FileList) :
  count_present fl = count_others fl + count_folders fl.
Proof.
  unfold count_present, count_others, count_folders.
  induction fl as [|[f|] fl IH]; cbn [count_if]; try lia.
  destruct (IsFolder f); cbn [negb]; lia.
Qed.

Lemma Count_from_exact (fl : FileList) :
  forall fileN directoryN : Z,
    0 <= fileN -> 0 <= directoryN ->
    fileN + count_others fl <= Go.max_int64 ->
    directoryN + count_folders fl <= Go.max_int64 ->
    Count_from fileN directoryN fl
    = (fileN + count_others fl, directoryN + count_folders fl).
Proof.
  unfold count_others, count_folders.
  induction fl as [|[f|] fl IH]; intros fileN directoryN Hf Hd Hfb Hdb.
  - cbn [Count_from count_if]. now rewrite !Z.add_0_r.
  - cbn [Count_from count_if] in *.
    pose proof (count_if_bounds (fun f => negb (IsFolder f)) fl) as B1.
    pose proof (count_if_bounds IsFolder fl) as B2.
    destruct (IsFolder f); cbn [negb] in *; unfold Go.add64.
    + rewrite GoFacts.wrap64_small by (GoFacts.int64_consts; lia).
      rewrite IH by lia. f_equal; lia.
    + rewrite GoFacts.wrap64_small by (GoFacts.int64_consts; lia).
      rewrite IH by lia. f_equal; lia.
  - cbn [Count_from count_if] in *. now apply IH.
Qed.

(** C8, as the claim states it, fails: two entries of 2^62 bytes each
    have the sum 2^63, which [int64] cannot hold; [TotalSize] returns
    -2^63. *)
Lemma TotalSize_wraps_around :
  let fl := [Some (sized "a" "file" (2 ^ 62)); None;
             Some (sized "b" "file" (2 ^ 62))] in
  sum_sizes fl = 2 ^ 63 /\
  TotalSize fl = - 2 ^ 63 /\
  TotalSize fl <> sum_sizes fl.
Proof. vm_compute. repeat split; discriminate. Qed.

(** C8, amended: [TotalSize] returns the sum of the [FileSize] fields of
    the non-nil elements reduced into the [int64] range (nil elements
    count for 0); it is exactly that sum whenever the sum fits in an
    [int64]. *)
Theorem TotalSize_is_wrapped_sum (fl : FileList) :
  TotalSize fl = Go.wrap64 (sum_sizes fl) /\
  (Go.min_int64 <= sum_sizes fl <= Go.max_int64 ->
   TotalSize fl = sum_sizes fl).
Proof.
  assert (H : TotalSize fl = Go.wrap64 (sum_sizes fl)).
  { unfold TotalSize. change 0 with (Go.wrap64 0) at 1.
    now rewrite TotalSize_from_wrap. }
  split; [exact H|]. intros Hr. rewrite H. now apply GoFacts.wrap64_small.
Qed.

Lemma TotalSize_is_wrapped_sum_witness :
  let fl := [Some (sized "a" "file" 20); None; Some (sized "b" "folder" 0);
             Some (sized "c" "file" 7)] in
  (Go.min_int64 <= sum_sizes fl <= Go.max_int64) /\ TotalSize fl = 27.
Proof.
  intros fl.
  assert (Hr : Go.min_int64 <= sum_sizes fl <= Go.max_int64)
    by (vm_compute; split; discriminate).
  split; [exact Hr|].
  exact (proj2 (TotalSize_is_wrapped_sum fl) Hr).
Defined.

(** C9: [Count] returns [(fileN, directoryN)] with [fileN + directoryN]
    the number of non-nil elements, [directoryN] the number of elements
    whose [FileType] is ["folder"], and [fileN] the number of the other
    non-nil elements.  The length of a Go slice is an [int]. *)
Theorem Count_partitions (fl : FileList) :
  Go.len fl <= Go.max_int64 ->
  fst (Count fl) + snd (Count fl) = count_present fl /\
  snd (Count fl) = count_folders fl /\
  fst (Count fl) = count_others fl.
Proof.
  intros Hlen.
  pose proof (count_if_bounds (fun f => negb (IsFolder f)) fl) as B1.
  pose proof (count_if_bounds IsFolder fl) as B2.
  unfold Count. rewrite Count_from_exact.
  - cbn [fst snd]. rewrite count_present_split.
    unfold count_others, count_folders. repeat split; lia.
  - lia.
  - lia.
  - unfold count_others. lia.
  - unfold count_folders. lia.
Qed.

Lemma Count_partitions_witness :
  let fl := [Some (sized "a" "file" 20); None; Some (sized "b" "folder" 0);
             Some (sized "c" "file" 7)] in
  Go.len fl <= Go.max_int64 /\
  Count fl = (2, 1) /\
  fst (Count fl) + snd (Count fl) = count_present fl /\
  snd (Count fl) = count_folders fl /\
  fst (Count fl) = count_others fl.
Proof.
  intros fl.
  assert (Hlen : Go.len fl <= Go.max_int64) by (vm_compute; discriminate).
  split; [exact Hlen|]. split; [reflexivity|].
  exact (Count_partitions fl Hlen).
Defined.

End Aggregates.

(** ** The lister and the path resolver *)

Section ClientFacts.

Variable P : Platform.
Variable VS : Type.

Lemma quiet_refl (s : St P VS) : quiet s s.
Proof. split; reflexivity. Qed.

Lemma quiet_trans (s1 s2 s3 : St P VS) : quiet s1 s2 -> quiet s2 s3 -> quiet s1 s3.
Proof. intros [A1 B1] [A2 B2]. split; congruence. Qed.

Lemma Quiet_ret {A} (a : A) : Quiet P VS (ret a).
Proof. intros s. apply quiet_refl. Qed.

Lemma Quiet_panic {A} : Quiet P VS (@panic P VS A).
Proof. intros s. apply quiet_refl. Qed.

Lemma Quiet_outOfFuel {A} : Quiet P VS (@outOfFuel P VS A).
Proof. intros s. apply quiet_refl. Qed.

Lemma Quiet_bind {A B} (c : M P VS A) (k : A -> M P VS B) :
  Quiet P VS c -> (forall a, Quiet P VS (k a)) -> Quiet P VS (bind c k).
Proof.
  intros Hc Hk s. unfold bind. specialize (Hc s).
  destruct (c s) as [[a| |] s1]; simpl in Hc; try exact Hc.
  eapply quiet_trans; [exact Hc|apply Hk].
Qed.

Lemma Quiet_doFetch method url postData header :
  Quiet P VS (doFetch method url postData header).
Proof.
  intros s. unfold doFetch.
  destruct (Fetch P method url postData header (world s)) as [r w'].
  split; simpl; [reflexivity|].
  unfold visits. rewrite filter_app. simpl. apply app_nil_r.
Qed.

Lemma Quiet_fileListReq p param : Quiet P VS (fileListReq p param).
Proof.
  unfold fileListReq. apply Quiet_bind; [apply Quiet_doFetch|].
  intros [err|body]; [apply Quiet_ret|].
  destruct (ParseCommonApiError P body); [apply Quiet_ret|].
  destruct (UnmarshalFileList P body); apply Quiet_ret.
Qed.

Lemma Quiet_FileList' p param : Quiet P VS (FileList' p param).
Proof.
  unfold FileList'. apply Quiet_bind; [apply Quiet_fileListReq|].
  intros [param' [flr [e|]]]; [apply Quiet_ret|].
  destruct flr; [apply Quiet_ret|apply Quiet_panic].
Qed.

Lemma Quiet_morePages fuel p :
  forall internalParam result fileList,
    Quiet P VS (morePages fuel p internalParam result fileList).
Proof.
  induction fuel as [|fuel IH]; intros internalParam result fileList;
    cbn [morePages]; destruct (0 <? Go.len_str (NextMarker result));
    try apply Quiet_ret; try apply Quiet_outOfFuel.
  apply Quiet_bind; [apply Quiet_FileList'|].
  intros [param' [[r|] [e|]]]; try apply Quiet_ret. apply IH.
Qed.

Lemma Quiet_FileListGetAll fuel p param : Quiet P VS (FileListGetAll fuel p param).
Proof.
  unfold FileListGetAll. apply Quiet_bind; [apply Quiet_FileList'|].
  intros [param' [[r|] [e|]]]; try apply Quiet_ret. apply Quiet_morePages.
Qed.

Lemma Quiet_scanChildren {R} (descend : FileEntity -> M P VS (option R * option (ApiError P)))
      pathSlice index fileResult :
  (forall fe, Quiet P VS (descend fe)) ->
  Quiet P VS (scanChildren descend pathSlice index fileResult).
Proof.
  intros Hd. induction fileResult as [|[fe|] rest IH]; cbn [scanChildren].
  - apply Quiet_ret.
  - destruct (Go.index pathSlice index); [|apply Quiet_panic].
    destruct (FileName fe =? s)%string; [apply Hd|apply IH].
  - apply Quiet_panic.
Qed.

Lemma Quiet_getFileInfoByPath fuel p driveId :
  forall index pathSlice parentFileInfo,
    Quiet P VS (getFileInfoByPath fuel p driveId index pathSlice parentFileInfo).
Proof.
  induction fuel as [|fuel IH]; intros index pathSlice parentFileInfo;
    cbn [getFileInfoByPath]; [apply Quiet_outOfFuel|].
  destruct parentFileInfo as [parent|].
  - destruct (Go.len pathSlice <=? index); [apply Quiet_ret|].
    apply Quiet_bind; [apply Quiet_FileListGetAll|].
    intros [fileResult [e|]]; [apply Quiet_ret|].
    destruct fileResult as [[|fe rest]|]; try apply Quiet_ret.
    apply Quiet_scanChildren. intros fe'. apply IH.
  - destruct ((index =? 0) && (Go.len pathSlice =? 1)); [apply Quiet_ret|apply IH].
Qed.

Lemma Quiet_FileInfoByPath fuel p driveId pathStr :
  Quiet P VS (FileInfoByPath fuel p driveId pathStr).
Proof.
  unfold FileInfoByPath.
  destruct (negb _); [apply Quiet_ret|].
  assert (Hres : forall pathStr' pathSlice,
             Quiet P VS (bind (getFileInfoByPath fuel p driveId 0 pathSlice None)
                      (fun x => let '(fileInfo, error) := x in
                                ret (option_map (setPath pathStr') fileInfo, error)))).
  { intros. apply Quiet_bind; [apply Quiet_getFileInfoByPath|].
    intros [fi er]. apply Quiet_ret. }
  destruct (_ =? "/")%string; [apply Hres|].
  destruct (Go.index _ 0); [|apply Quiet_panic].
  destruct (negb _); [apply Quiet_ret|apply Hres].
Qed.

Lemma IsAbs_HasPrefix (path : string) : Go.IsAbs path = Go.HasPrefix path "/".
Proof.
  destruct path as [|c path]; [reflexivity|].
  cbn. destruct path; rewrite andb_true_r; apply Ascii.eqb_sym.
Qed.

(** C5: for every drive id, [FileInfoByPath] on ["/"] returns the root
    sentinel ([FileId] ["root"], [FileType] ["folder"], [Path] ["/"])
    with no error, and leaves the state as it found it: it sends no
    request. *)
Theorem FileInfoByPath_root (fuel : nat) (p : PanClient P) (driveId : string)
        (s : St P VS) :
  FileInfoByPath (S fuel) p driveId "/" s
  = (Done (Some NewFileEntityForRootDir, None), s) /\
  FileId NewFileEntityForRootDir = "root" /\
  FileType NewFileEntityForRootDir = "folder" /\
  Path NewFileEntityForRootDir = "/".
Proof. repeat split. Qed.

(** The empty path is resolved as ["/"]. *)
Lemma FileInfoByPath_empty_is_root (fuel : nat) (p : PanClient P)
      (driveId : string) (s : St P VS) :
  FileInfoByPath (S fuel) p driveId "" s
  = (Done (Some NewFileEntityForRootDir, None), s).
Proof. reflexivity. Qed.

(** C6, amended: for every path that is not empty and does not start
    with ["/"], [FileInfoByPath] returns no entity and the error
    [NewFailedApiError("pathStr必须是绝对路径")], whatever the drive id and
    the state of the remote side, and sends no request. *)
Theorem FileInfoByPath_relative (fuel : nat) (p : PanClient P)
        (driveId pathStr : string) (s : St P VS) :
  pathStr <> "" ->
  Go.HasPrefix pathStr "/" = false ->
  FileInfoByPath fuel p driveId pathStr s = (Done (None, Some (notAbsolute P)), s).
Proof.
  intros Hne Hrel. rewrite <- IsAbs_HasPrefix in Hrel.
  unfold FileInfoByPath.
  destruct pathStr as [|c rest]; [contradiction|].
  cbn [String.eqb]. rewrite Hrel. reflexivity.
Qed.

(** [FileList] never returns an error. *)
Lemma FileList'_error_is_nil p param (s s' : St P VS) param' r err :
  FileList' p param s = (Done (param', (r, err)), s') -> err = None.
Proof.
  unfold FileList', bind.
  destruct (fileListReq p param s) as [[[q [flr [e|]]]| |] s1]; try discriminate.
  - intros H. now inversion H.
  - destruct flr; [|discriminate]. intros H. now inversion H.
Qed.

(** Whatever makes [fileListReq] fail (the transport, an error envelope
    of the server, a body that does not decode), [FileList] answers with
    an empty page, an empty marker and a nil error. *)
Lemma FileList'_hides_failure p param (s s' : St P VS) param' e :
  fileListReq p param s = (Done (param', (None, Some e)), s') ->
  FileList' p param s = (Done (param', (Some (mkFileListResult [] ""), None)), s').
Proof. intros H. unfold FileList', bind. now rewrite H. Qed.

(** With it, [FileListGetAll] answers a failure of its first request with
    an empty, non-nil list and a nil error. *)
Lemma FileListGetAll_hides_first_failure fuel p param (s s' : St P VS) param' e :
  fileListReq p (firstParam param) s = (Done (param', (None, Some e)), s') ->
  FileListGetAll fuel p param s = (Done (Some [], None), s').
Proof.
  intros H. unfold FileListGetAll, bind.
  replace (mkFileListParam _ _ _ _ _ _) with param by (now destruct param).
  fold (firstParam param).
  rewrite (FileList'_hides_failure _ _ _ _ _ _ H).
  destruct fuel; reflexivity.
Qed.

(** [FileListGetAll] never returns an error. *)
Lemma morePages_error_is_nil fuel p :
  forall internalParam result fileList (s s' : St P VS) r err,
    morePages fuel p internalParam result fileList s = (Done (r, err), s') ->
    err = None.
Proof.
  induction fuel as [|fuel IH]; intros internalParam result fileList s s' r err;
    cbn [morePages]; destruct (0 <? Go.len_str (NextMarker result));
    try discriminate; try (intros H; now inversion H).
  unfold bind.
  destruct (FileList' p _ s) as [[[q [[res|] [e|]]]| |] s1]; try discriminate;
    try (intros H; now inversion H).
  apply IH.
Qed.

Lemma FileListGetAll_error_is_nil fuel p param (s s' : St P VS) r err :
  FileListGetAll fuel p param s = (Done (r, err), s') -> err = None.
Proof.
  unfold FileListGetAll, bind.
  destruct (FileList' p _ s) as [[[q [[res|] [e|]]]| |] s1] eqn:E; try discriminate.
  - apply FileList'_error_is_nil in E. discriminate.
  - apply morePages_error_is_nil.
  - apply FileList'_error_is_nil in E. discriminate.
  - intros H. now inversion H.
Qed.

(** The entity [FileInfoByPath] returns carries the normalised path. *)
Lemma FileInfoByPath_sets_path fuel p driveId pathStr (s s' : St P VS) e err :
  FileInfoByPath fuel p driveId pathStr s = (Done (Some e, err), s') ->
  Path e = normalised pathStr.
Proof.
  unfold FileInfoByPath, normalised.
  set (p0 := if (pathStr =? "")%string then "/" else pathStr).
  destruct (negb (Go.IsAbs p0)); [intros H; inversion H|].
  set (p1 := if 1 <? Go.len_str p0 then Go.Clean p0 else p0).
  assert (Hres : forall pathSlice,
             bind (getFileInfoByPath fuel p driveId 0 pathSlice None)
               (fun x => let '(fileInfo, error) := x in
                         ret (option_map (setPath p1) fileInfo, error)) s
             = (Done (Some e, err), s') -> Path e = p1).
  { intros pathSlice. unfold bind.
    destruct (getFileInfoByPath fuel p driveId 0 pathSlice None s)
      as [[[[fi|] er]| |] s1]; try discriminate; intros H; inversion H.
    reflexivity. }
  destruct (p1 =? "/")%string; [apply Hres|].
  destruct (Go.index _ 0); [|discriminate].
  destruct (negb _); [intros H; inversion H|apply Hres].
Qed.

(** C7: when the start path resolves to an entity that is not a folder,
    [FilesDirectoriesRecurseList] calls the visitor once, at depth 0
    with the start path, that entity and no error, sends no request
    after the resolution, and returns the list of that one entity. *)
Theorem walk_of_a_file (fuel : nat) (p : PanClient P) (driveId path : string)
        (h : HandleFileDirectoryFunc P VS) (s s1 : St P VS) (e : FileEntity) :
  FileInfoByPath fuel p driveId path s = (Done (Some e, None), s1) ->
  IsFolder e = false ->
  let call := EvHandle 0 path (Some e) None in
  let s2 := mkSt (world s1) (snd (h 0 path (Some e) None (vstate s1)))
              (trace s1 ++ [call]) in
  FilesDirectoriesRecurseList fuel p driveId path (Some h) s
  = (Done (Some [Some e]), s2) /\
  visits (trace s2) = visits (trace s) ++ [call] /\
  requests (trace s2) = requests (trace s1).
Proof.
  intros Hres Hfile call s2.
  pose proof (Quiet_FileInfoByPath fuel p driveId path s) as [_ Hq].
  rewrite Hres in Hq. cbn [snd] in Hq.
  split; [|split].
  - unfold FilesDirectoriesRecurseList, bind. rewrite Hres, Hfile.
    cbn [handleIfSet]. unfold callHandle.
    destruct (h 0 path (Some e) None (vstate s1)) as [b v']. reflexivity.
  - subst s2. cbn [trace]. unfold visits in *. rewrite filter_app, Hq.
    reflexivity.
  - subst s2. cbn [trace]. unfold requests. rewrite filter_app.
    cbn. apply app_nil_r.
Qed.

End ClientFacts.

(** ** Runs on the small drive *)

Section Runs.

Import Demo.

(** C2: [FileList] is given a link that is down, and then a folder the
    server answers with its error envelope.  In both runs [fileListReq]
    returns the error, and [FileList] returns an empty page with a nil
    error: the failure is reported as a successful empty result. *)
Theorem FileList_reports_failure_as_empty_page :
  fst (fileListReq client (listing "d1") (start (DownAfter 0)))
  = Done (sent "d1", (None, Some (mkApiError 999 "dial tcp: connection refused"))) /\
  fst (FileList' client (listing "d1") (start (DownAfter 0)))
  = Done (sent "d1", (Some (mkFileListResult [] ""), None)) /\
  fst (fileListReq client (listing "k1") (start Up))
  = Done (sent "k1", (None, Some (mkApiError 403 "ForbiddenNoPermission.File"))) /\
  fst (FileList' client (listing "k1") (start Up))
  = Done (sent "k1", (Some (mkFileListResult [] ""), None)).
Proof. repeat split. Qed.

(** C1: [FileListGetAll] lists the two-page folder [/big].  When the
    link goes down after the first page, the entities of the first page
    are returned with a nil error, as the claim says.  When the link is
    down from the start, the result is an empty, non-nil list with a
    nil error: the error of the first page is not returned. *)
Theorem FileListGetAll_loses_first_page_error :
  fst (FileListGetAll 2 client (listing "g1") (start (DownAfter 1)))
  = Done (Some [Some (entity "f1" "one" "file" "g1" 1);
                Some (entity "f2" "two" "file" "g1" 2)], None) /\
  fst (fileListReq client (firstParam (listing "g1")) (start (DownAfter 0)))
  = Done (mkFileListParam "updated_at" "DESC" "drive" "g1" 100 "",
          (None, Some (mkApiError 999 "dial tcp: connection refused"))) /\
  fst (FileListGetAll 2 client (listing "g1") (start (DownAfter 0)))
  = Done (Some [], None).
Proof. repeat split. Qed.

(** C3: the walk of [/d] with a visitor that answers [false] at its
    second invocation, the one for the folder [/d/A].  The visitor is
    called twice more, for [/d/A/x] and for [/d/B], and the walk returns
    the full list, not nil. *)
Theorem walk_goes_on_after_false_at_a_folder :
  let r := FilesDirectoriesRecurseList 3 client "drive" "/d"
             (Some (stopAt 2)) (start Up) in
  fst (stopAt 2 1 "/d/A" (Some eA) None 1%nat) = false /\
  visits (trace (snd r))
  = [EvHandle 0 "/d" (Some ed) None;
     EvHandle 1 "/d/A" (Some eA) None;
     EvHandle 2 "/d/A/x" (Some ex) None;
     EvHandle 1 "/d/B" (Some eB) None] /\
  fst r = Done (Some [Some eA; Some ex; Some eB]).
Proof. repeat split. Qed.

(** A visitor that answers [false] at its third invocation, the one for
    the file [/d/A/x], does stop the walk: [/d/B] is not visited and the
    result is nil. *)
Lemma walk_stops_after_false_at_a_file :
  let r := FilesDirectoriesRecurseList 4 client "drive" "/d"
             (Some (stopAt 3)) (start Up) in
  visits (trace (snd r))
  = [EvHandle 0 "/d" (Some ed) None;
     EvHandle 1 "/d/A" (Some eA) None;
     EvHandle 2 "/d/A/x" (Some ex) None] /\
  fst r = Done None.
Proof. repeat split. Qed.

(** The walk of [/d] with any visitor that lets the walk go on, whatever
    else it does, and any fuel from 3 on. *)
Lemma walk_of_d_on_the_small_drive (VS : Type)
      (g : Z -> string -> option FileEntity -> option apiError -> VS -> VS)
      (v : VS) (fuel : nat) :
  let h : HandleFileDirectoryFunc drive VS :=
    fun depth fdPath fd apierr st => (true, g depth fdPath fd apierr st) in
  let r := FilesDirectoriesRecurseList (3 + fuel) client "drive" "/d" (Some h)
             (mkSt (P := drive) Up v []) in
  map called (visits (trace (snd r)))
  = [Some (0, "/d"); Some (1, "/d/A"); Some (2, "/d/A/x"); Some (1, "/d/B")] /\
  fst r = Done (Some [Some eA; Some ex; Some eB]).
Proof. repeat split. Qed.

(** C6, as the claim states it, fails: the empty path does not start
    with ["/"], and [FileInfoByPath] returns the root folder and no
    error for it. *)
Lemma FileInfoByPath_empty_path_resolves :
  Go.HasPrefix "" "/" = false /\
  FileInfoByPath 1 client "drive" "" (start Up)
  = (Done (Some NewFileEntityForRootDir, None), start Up) /\
  FileInfoByPath 1 client "drive" "" (start Up)
  <> (Done (None, Some (notAbsolute drive)), start Up).
Proof. repeat split. discriminate. Qed.

Lemma FileInfoByPath_relative_witness :
  "d/A" <> "" /\ Go.HasPrefix "d/A" "/" = false /\
  FileInfoByPath 5 client "drive" "d/A" (start Up)
  = (Done (None, Some (mkApiError 999 "pathStr必须是绝对路径")), start Up).
Proof.
  assert (H1 : "d/A" <> "") by discriminate.
  assert (H2 : Go.HasPrefix "d/A" "/" = false) by reflexivity.
  split; [exact H1|]. split; [exact H2|].
  exact (FileInfoByPath_relative drive nat 5 client "drive" "d/A" (start Up) H1 H2).
Defined.

Lemma walk_of_a_file_witness :
  let s1 := snd (FileInfoByPath 4 client "drive" "/d/B" (start Up)) in
  FileInfoByPath 4 client "drive" "/d/B" (start Up) = (Done (Some eB, None), s1) /\
  IsFolder eB = false /\
  fst (FilesDirectoriesRecurseList 4 client "drive" "/d/B" (Some goOn) (start Up))
  = Done (Some [Some eB]) /\
  visits (trace (snd (FilesDirectoriesRecurseList 4 client "drive" "/d/B"
                        (Some goOn) (start Up))))
  = [EvHandle 0 "/d/B" (Some eB) None].
Proof.
  intros s1.
  assert (H1 : FileInfoByPath 4 client "drive" "/d/B" (start Up)
               = (Done (Some eB, None), s1)) by reflexivity.
  assert (H2 : IsFolder eB = false) by reflexivity.
  split; [exact H1|]. split; [exact H2|].
  destruct (walk_of_a_file drive nat 4 client "drive" "/d/B" goOn (start Up) s1 eB
              H1 H2) as [Hrun [Hvis _]].
  split.
  - rewrite Hrun. reflexivity.
  - rewrite Hrun. exact Hvis.
Defined.

End Runs.

(** ** The walk of a served tree *)

Lemma Tree_nested_ind (Q : Tree -> Prop) :
  (forall e kids, Forall Q kids -> Q (Node e kids)) -> forall t, Q t.
Proof.
  intros H. fix IH 1. intros [e kids]. apply H.
  induction kids as [|k kids IHkids]; constructor; [apply IH|exact IHkids].
Qed.

Lemma height_children (e : FileEntity) (kids : list Tree) :
  Forall (fun k => (S (height k) <= height (Node e kids))%nat) kids.
Proof.
  cbn [height].
  assert (H : Forall (fun n => (n <= list_max (map height kids))%nat)
                (map height kids)) by (apply list_max_le; lia).
  rewrite Forall_map in H. eapply Forall_impl; [|exact H].
  cbn. intros k Hk. lia.
Qed.

Section WalkFacts.

Variable P : Platform.
Variable VS : Type.
Variable inv : World P -> Prop.
Variable pageFuel : nat.
Variable p : PanClient P.
Variable driveId : string.

Lemma bind_Done {A B} (c : M P VS A) (k : A -> M P VS B) (s s' : St P VS) (a : A) :
  c s = (Done a, s') -> bind c k s = k a s'.
Proof. intros H. unfold bind. now rewrite H. Qed.

Lemma bind_Done_eq {A B} (c : M P VS A) (k : A -> M P VS B) (s s1 s2 : St P VS)
      (a : A) (b : B) :
  c s = (Done a, s1) -> k a s1 = (Done b, s2) -> bind c k s = (Done b, s2).
Proof. intros H1 H2. now rewrite (bind_Done _ _ _ _ _ H1). Qed.

Lemma served_folder (e : FileEntity) (kids : list Tree) :
  served P VS inv pageFuel p driveId (Node e kids) ->
  IsFolder e = true ->
  listsAs P VS inv pageFuel p driveId e (map label kids)
  /\ Forall (served P VS inv pageFuel p driveId) kids.
Proof.
  cbn [served]. intros H Hf. rewrite Hf in H. destruct H as [Hl Hall].
  split; [exact Hl|]. clear Hl.
  induction kids as [|k kids IH]; constructor; destruct Hall; auto.
Qed.

Lemma served_file (e : FileEntity) (kids : list Tree) :
  served P VS inv pageFuel p driveId (Node e kids) ->
  IsFolder e = false -> kids = [].
Proof. cbn [served]. intros H Hf. now rewrite Hf in H. Qed.

Lemma visits_snoc_handle (t : list (Event P)) d pth fd err :
  visits (t ++ [EvHandle d pth fd err]) = visits t ++ [EvHandle d pth fd err].
Proof. unfold visits. now rewrite filter_app. Qed.

Lemma calls_app (h : option (HandleFileDirectoryFunc P VS)) (a b : list (Event P)) :
  calls h (a ++ b) = calls h a ++ calls h b.
Proof. destruct h; reflexivity. Qed.

(** A call of a visitor that lets the walk go on. *)
Lemma handleIfSet_continuing (h : option (HandleFileDirectoryFunc P VS))
      d pth fd err (s : St P VS) :
  continuing h ->
  exists s',
    handleIfSet h true d pth fd err s = (Done true, s')
    /\ world s' = world s
    /\ visits (trace s') = visits (trace s) ++ calls h [EvHandle d pth fd err].
Proof.
  intros Hc. destruct h as [hf|]; cbn [handleIfSet calls].
  - unfold callHandle. specialize (Hc d pth fd err (vstate s)).
    destruct (hf d pth fd err (vstate s)) as [b v']. cbn [fst] in Hc. subst b.
    eexists. split; [reflexivity|]. cbn [world trace].
    split; [reflexivity|apply visits_snoc_handle].
  - exists s. split; [reflexivity|]. split; [reflexivity|].
    now rewrite app_nil_r.
Qed.

(** The loop over the children of a folder, when the walk of every child
    that is a folder is known to run through. *)
Lemma recurseLoop_served (h : option (HandleFileDirectoryFunc P VS))
      (fuel : nat) (folderInfo : FileEntity) (depth : Z) :
  continuing h ->
  forall kids : list Tree,
    Forall (fun k =>
              served P VS inv pageFuel p driveId k ->
              IsFolder (label k) = true ->
              forall (fuel : nat) (pth : string) (d : Z) (fld : FileList)
                     (s : St P VS),
                (height k + pageFuel <= fuel)%nat ->
                inv (world s) ->
                exists s',
                  recurseList fuel p driveId (setPath pth (label k)) d h fld s
                  = (Done (true,
                           fld ++ map Some (flat_map (preorder pth) (children k))),
                     s')
                  /\ inv (world s')
                  /\ visits (trace s')
                     = visits (trace s)
                         ++ calls h (map handleCall
                                       (flat_map (visitsBelow d pth) (children k))))
           kids ->
    Forall (served P VS inv pageFuel p driveId) kids ->
    Forall (fun k => (height k + pageFuel <= fuel)%nat) kids ->
    forall (fld : FileList) (s : St P VS),
      inv (world s) ->
      exists s',
        recurseLoop
          (fun fi fld => recurseList fuel p driveId fi (Go.add64 depth 1) h fld)
          folderInfo depth h (map Some (map label kids)) fld s
        = (Done (true,
                 fld ++ map Some (flat_map (preorder (Path folderInfo)) kids)),
           s')
        /\ inv (world s')
        /\ visits (trace s')
           = visits (trace s)
               ++ calls h (map handleCall
                             (flat_map (visitsBelow depth (Path folderInfo)) kids)).
Proof.
  intros Hc.
  induction kids as [|[ek kks] kids IH]; intros Hwalk Hserved Hfuel fld s Hinv.
  - exists s. cbn. rewrite !app_nil_r. destruct h; cbn; rewrite ?app_nil_r; auto.
  - inversion Hwalk as [|? ? Hk Hwalk']; subst.
    inversion Hserved as [|? ? Sk Hserved']; subst.
    inversion Hfuel as [|? ? Fk Hfuel']; subst.
    set (pth := joinPath (Path folderInfo) (FileName ek)).
    assert (Hev :
              calls h (map handleCall
                         (flat_map (visitsBelow depth (Path folderInfo))
                            (Node ek kks :: kids)))
              = calls h [EvHandle depth pth (Some (setPath pth ek)) None]
                  ++ calls h (map handleCall
                                (flat_map (visitsBelow (Go.add64 depth 1) pth) kks))
                  ++ calls h (map handleCall
                                (flat_map (visitsBelow depth (Path folderInfo)) kids))).
    { rewrite <- !calls_app. f_equal. cbn [flat_map visitsBelow].
      fold pth. rewrite <- map_app. reflexivity. }
    assert (Hout :
              map Some (flat_map (preorder (Path folderInfo)) (Node ek kks :: kids))
              = [Some (setPath pth ek)]
                  ++ map Some (flat_map (preorder pth) kks)
                  ++ map Some (flat_map (preorder (Path folderInfo)) kids)).
    { cbn [flat_map preorder]. fold pth. rewrite <- map_app. reflexivity. }
    rewrite Hev, Hout. clear Hev Hout.
    cbn [map label recurseLoop].
    change (Go.ReplaceAll (Path folderInfo ++ PathSeparator ++ FileName ek)%string
              "//" "/") with pth.
    change (IsFolder (setPath pth ek)) with (IsFolder ek).
    change (Path (setPath pth ek)) with pth.
    destruct (handleIfSet_continuing h depth pth (Some (setPath pth ek)) None s Hc)
      as (s0 & Hcall & Hw0 & Hv0).
    assert (Hinv0 : inv (world s0)) by (now rewrite Hw0).
    destruct (IsFolder ek) eqn:Hfolder.
    + destruct (Hk Sk Hfolder fuel pth (Go.add64 depth 1)
                  (fld ++ [Some (setPath pth ek)]) s0 Fk Hinv0)
        as (s1 & Hrun & Hinv1 & Hv1).
      cbn [children label] in Hrun, Hv1.
      destruct (IH Hwalk' Hserved' Hfuel'
                  ((fld ++ [Some (setPath pth ek)])
                     ++ map Some (flat_map (preorder pth) kks)) s1 Hinv1)
        as (s2 & Hrest & Hinv2 & Hv2).
      exists s2. split; [|split; [exact Hinv2|]].
      * rewrite (bind_Done _ _ _ _ _
                   (bind_Done_eq _ _ _ _ _ _ _ Hcall Hrun)).
        cbn [negb]. rewrite Hrest, <- !app_assoc. reflexivity.
      * rewrite Hv2, Hv1, Hv0, <- !app_assoc. reflexivity.
    + assert (kks = []) by (eapply served_file; eauto). subst kks.
      destruct (IH Hwalk' Hserved' Hfuel' (fld ++ [Some (setPath pth ek)]) s0 Hinv0)
        as (s2 & Hrest & Hinv2 & Hv2).
      exists s2. split; [|split; [exact Hinv2|]].
      * rewrite (bind_Done _ _ _ _ _
                   (bind_Done_eq _ _ _ _ _ _ _ Hcall eq_refl)).
        cbn [negb]. rewrite Hrest, <- !app_assoc. reflexivity.
      * rewrite Hv2, Hv0, <- !app_assoc. f_equal. f_equal.
        destruct h; reflexivity.
Qed.

(** The walk below a folder of a served tree. *)
Lemma recurseList_served (h : option (HandleFileDirectoryFunc P VS)) :
  continuing h ->
  forall t : Tree,
    served P VS inv pageFuel p driveId t ->
    IsFolder (label t) = true ->
    forall (fuel : nat) (pth : string) (d : Z) (fld : FileList) (s : St P VS),
      (height t + pageFuel <= fuel)%nat ->
      inv (world s) ->
      exists s',
        recurseList fuel p driveId (setPath pth (label t)) d h fld s
        = (Done (true, fld ++ map Some (flat_map (preorder pth) (children t))), s')
        /\ inv (world s')
        /\ visits (trace s')
           = visits (trace s)
               ++ calls h (map handleCall
                             (flat_map (visitsBelow d pth) (children t))).
Proof.
  intros Hc.
  induction t as [e kids IHkids] using Tree_nested_ind.
  intros Hs Hf fuel pth d fld s Hfuel Hinv.
  cbn [label] in Hf.
  destruct (served_folder _ _ Hs Hf) as [Hlist Hkids].
  pose proof (height_children e kids) as Hh.
  destruct fuel as [|fuel']; [cbn [height] in Hfuel; lia|].
  assert (Hpage : (pageFuel <= fuel')%nat) by (cbn [height] in Hfuel; lia).
  assert (Hfuelkids : Forall (fun k => (height k + pageFuel <= fuel')%nat) kids).
  { eapply Forall_impl; [|exact Hh]. cbn beta. intros k Hk. lia. }
  cbn [label children recurseList].
  change (FileId (setPath pth e)) with (FileId e).
  destruct (Hlist fuel' s Hpage Hinv) as (s1 & Hget & Hinv1).
  pose proof (Quiet_FileListGetAll P VS fuel' p
                (mkFileListParam "" "" driveId (FileId e) 0 "") s) as [_ Hq1].
  rewrite Hget in Hq1. cbn [snd] in Hq1.
  rewrite (bind_Done _ _ _ _ _ Hget).
  destruct (recurseLoop_served h fuel' (setPath pth e) d Hc kids IHkids Hkids
              Hfuelkids fld s1 Hinv1) as (s2 & Hloop & Hinv2 & Hv2).
  exists s2. split; [exact Hloop|].
  split; [exact Hinv2|]. rewrite Hv2, Hq1. reflexivity.
Qed.

(** Without a visitor nothing stops the loop: whatever the remote side
    answers, a run of [recurseList] that ends returns [true], and it is
    quiet. *)
Lemma recurseLoop_without_visitor
      (descend : FileEntity -> FileList -> M P VS (bool * FileList))
      (folderInfo : FileEntity) (depth : Z) :
  (forall fi fld s ok fld' s',
      descend fi fld s = (Done (ok, fld'), s') -> ok = true) ->
  forall (r fld : FileList) (s s' : St P VS) (ok : bool) (fld' : FileList),
    recurseLoop descend folderInfo depth None r fld s = (Done (ok, fld'), s') ->
    ok = true.
Proof.
  intros Hd. induction r as [|[fi|] r IH]; intros fld s s' ok fld';
    cbn [recurseLoop].
  - intros H. now inversion H.
  - match goal with |- context [IsFolder ?x] => destruct (IsFolder x) end.
    + unfold bind at 1. cbn [handleIfSet]. unfold bind at 1, ret at 1.
      match goal with |- context [descend ?a ?b s] =>
        destruct (descend a b s) as [[[ok1 fld1]| |] s1] eqn:E end;
        try discriminate.
      apply Hd in E. subst ok1. cbn [negb]. apply IH.
    + unfold bind at 1. cbn [handleIfSet]. unfold bind at 1, ret at 1.
      unfold ret at 1. cbn [negb]. apply IH.
  - discriminate.
Qed.

Lemma recurseList_without_visitor (fuel : nat) :
  forall (folderInfo : FileEntity) (depth : Z) (fld : FileList)
         (s s' : St P VS) (ok : bool) (fld' : FileList),
    recurseList fuel p driveId folderInfo depth None fld s = (Done (ok, fld'), s') ->
    ok = true.
Proof.
  induction fuel as [|fuel IH]; intros folderInfo depth fld s s' ok fld';
    cbn [recurseList]; [discriminate|].
  unfold bind at 1.
  destruct (FileListGetAll fuel p _ s) as [[[r err]| |] s1] eqn:E;
    try discriminate.
  apply FileListGetAll_error_is_nil in E. subst err.
  apply recurseLoop_without_visitor. intros fi fld0 s0 ok0 fld0' s0'. apply IH.
Qed.

Lemma Quiet_recurseLoop_without_visitor
      (descend : FileEntity -> FileList -> M P VS (bool * FileList))
      (folderInfo : FileEntity) (depth : Z) :
  (forall fi fld, Quiet P VS (descend fi fld)) ->
  forall r fld, Quiet P VS (recurseLoop descend folderInfo depth None r fld).
Proof.
  intros Hd. induction r as [|[fi|] r IH]; intros fld; cbn [recurseLoop].
  - apply Quiet_ret.
  - apply Quiet_bind.
    + match goal with |- context [IsFolder ?x] => destruct (IsFolder x) end;
        cbn [handleIfSet].
      * apply Quiet_bind; [apply Quiet_ret|intros _; apply Hd].
      * apply Quiet_bind; [apply Quiet_ret|intros ok; apply Quiet_ret].
    + intros [ok fld1]. destruct (negb ok); [apply Quiet_ret|apply IH].
  - apply Quiet_panic.
Qed.

Lemma Quiet_recurseList_without_visitor (fuel : nat) :
  forall folderInfo depth fld,
    Quiet P VS (recurseList fuel p driveId folderInfo depth None fld).
Proof.
  induction fuel as [|fuel IH]; intros folderInfo depth fld; cbn [recurseList];
    [apply Quiet_outOfFuel|].
  apply Quiet_bind; [apply Quiet_FileListGetAll|].
  intros [r [e|]].
  - cbn [handleIfSet]. apply Quiet_bind; [apply Quiet_ret|intros _; apply Quiet_ret].
  - apply Quiet_recurseLoop_without_visitor. intros fi fld0. apply IH.
Qed.

Lemma walk_without_visitor_unfold (fuel : nat) (path : string)
      (s s1 : St P VS) (target : FileEntity) :
  FileInfoByPath fuel p driveId path s = (Done (Some target, None), s1) ->
  FilesDirectoriesRecurseList fuel p driveId path None s
  = if IsFolder target
    then match recurseList fuel p driveId target 1 None [] s1 with
         | (Done (ok, fld), s2) =>
             (Done (if negb ok then None else Some fld), s2)
         | (Panic, s2) => (Panic, s2)
         | (OutOfFuel, s2) => (OutOfFuel, s2)
         end
    else (Done (Some [Some target]), s1).
Proof.
  intros Hres.
  unfold FilesDirectoriesRecurseList. rewrite (bind_Done _ _ _ _ _ Hres).
  destruct (IsFolder target); cbn [handleIfSet]; [|reflexivity].
  unfold bind at 1, ret at 1. unfold bind.
  destruct (recurseList fuel p driveId target 1 None [] s1)
    as [[[[|] fld]| |] s2]; reflexivity.
Qed.

(** With no visitor the walk calls nothing, however it ends, and when
    it ends after the start path resolved to an entity, its result is a
    list, not nil. *)
Lemma walk_without_visitor_goes_through (fuel : nat) (path : string)
      (s s1 : St P VS) (target : FileEntity) :
  FileInfoByPath fuel p driveId path s = (Done (Some target, None), s1) ->
  quiet s (snd (FilesDirectoriesRecurseList fuel p driveId path None s)) /\
  forall result s2,
    FilesDirectoriesRecurseList fuel p driveId path None s = (Done result, s2) ->
    result <> None.
Proof.
  intros Hres.
  pose proof (Quiet_FileInfoByPath P VS fuel p driveId path s) as Hq.
  rewrite Hres in Hq. cbn [snd] in Hq.
  rewrite (walk_without_visitor_unfold _ _ _ _ _ Hres).
  destruct (IsFolder target).
  - pose proof (Quiet_recurseList_without_visitor fuel target 1 [] s1) as Hq1.
    destruct (recurseList fuel p driveId target 1 None [] s1)
      as [[[ok fld]| |] s2'] eqn:E; cbn [snd] in *.
    + apply recurseList_without_visitor in E. subst ok. cbn [negb].
      split; [eapply quiet_trans; eauto|].
      intros result s2 H. inversion H. discriminate.
    + split; [eapply quiet_trans; eauto|]. intros result s2 H. discriminate.
    + split; [eapply quiet_trans; eauto|]. intros result s2 H. discriminate.
  - split; [exact Hq|]. intros result s2 H. inversion H. discriminate.
Qed.

(** The walk of a served folder with a visitor that lets it go on (or
    with none): the result is the pre-order of the tree below the folder,
    and the visitor is called for the folder and then, in the same order,
    for every entity of the result. *)
Lemma walk_of_a_served_folder (h : option (HandleFileDirectoryFunc P VS))
      (fuel : nat) (path : string) (s s1 : St P VS) (target : FileEntity)
      (kids : list Tree) :
  continuing h ->
  FileInfoByPath fuel p driveId path s = (Done (Some target, None), s1) ->
  IsFolder target = true ->
  served P VS inv pageFuel p driveId (Node target kids) ->
  inv (world s1) ->
  (height (Node target kids) + pageFuel <= fuel)%nat ->
  exists s2,
    FilesDirectoriesRecurseList fuel p driveId path h s
    = (Done (Some (map Some (flat_map (preorder (Path target)) kids))), s2)
    /\ visits (trace s2)
       = visits (trace s)
           ++ calls h (EvHandle 0 path (Some target) None
                         :: map handleCall
                              (flat_map (visitsBelow 1 (Path target)) kids)).
Proof.
  intros Hc Hres Hfolder Hserved Hinv Hfuel.
  pose proof (Quiet_FileInfoByPath P VS fuel p driveId path s) as [_ Hq].
  rewrite Hres in Hq. cbn [snd] in Hq.
  destruct (handleIfSet_continuing h 0 path (Some target) None s1 Hc)
    as (s1' & Hcall & Hw & Hv).
  assert (Hinv' : inv (world s1')) by (now rewrite Hw).
  destruct (recurseList_served h Hc (Node target kids) Hserved Hfolder fuel
              (Path target) 1 [] s1' Hfuel Hinv') as (s2 & Hrun & _ & Hv2).
  cbn [label children] in Hrun, Hv2.
  replace (setPath (Path target) target) with target in Hrun
    by (now destruct target).
  exists s2. split.
  - unfold FilesDirectoriesRecurseList. rewrite (bind_Done _ _ _ _ _ Hres).
    rewrite Hfolder.
    rewrite (bind_Done _ _ _ _ _ Hcall), (bind_Done _ _ _ _ _ Hrun).
    reflexivity.
  - rewrite Hv2, Hv, Hq, <- app_assoc, <- calls_app. reflexivity.
Qed.

(** C10: with no visitor, when the start path resolves to a folder and
    the remote side serves the tree below it (every listing succeeds), the
    walk returns every entity of the tree, in depth-first pre-order and
    with its path, and calls nothing on the way. *)
Theorem walk_without_visitor (fuel : nat) (path : string) (s s1 : St P VS)
        (target : FileEntity) (kids : list Tree) :
  FileInfoByPath fuel p driveId path s = (Done (Some target, None), s1) ->
  IsFolder target = true ->
  served P VS inv pageFuel p driveId (Node target kids) ->
  inv (world s1) ->
  (height (Node target kids) + pageFuel <= fuel)%nat ->
  exists s2,
    FilesDirectoriesRecurseList fuel p driveId path None s
    = (Done (Some (map Some (flat_map (preorder (Path target)) kids))), s2)
    /\ visits (trace s2) = visits (trace s)
    /\ vstate s2 = vstate s.
Proof.
  intros Hres Hfolder Hserved Hinv Hfuel.
  destruct (walk_of_a_served_folder None fuel path s s1 target kids I Hres
              Hfolder Hserved Hinv Hfuel) as (s2 & Hrun & _).
  destruct (walk_without_visitor_goes_through fuel path s s1 target Hres)
    as [[Hvs Hvis] _].
  rewrite Hrun in Hvs, Hvis. cbn [snd] in Hvs, Hvis.
  exists s2. repeat split; assumption.
Qed.

(** C4: a folder resolved from [/d] lists the folder [A], which lists
    [x], and then [B].  With a visitor that lets the walk go on, the walk
    calls it four times: at depth 0 with [/d], at depth 1 with [/d/A], at
    depth 2 with [/d/A/x], at depth 1 with [/d/B]; the paths of the
    children are those of their parents, ["/"] and their names. *)
Theorem walk_visits_in_preorder (h : HandleFileDirectoryFunc P VS)
        (fuel : nat) (s s1 : St P VS) (d a x b : FileEntity) :
  (forall depth pth fd err v, fst (h depth pth fd err v) = true) ->
  FileInfoByPath fuel p driveId "/d" s = (Done (Some d, None), s1) ->
  served P VS inv pageFuel p driveId (Node d [Node a [Node x []]; Node b []]) ->
  FileName a = "A" -> FileName x = "x" -> FileName b = "B" ->
  inv (world s1) ->
  (3 + pageFuel <= fuel)%nat ->
  exists s2,
    FilesDirectoriesRecurseList fuel p driveId "/d" (Some h) s
    = (Done (Some [Some (setPath "/d/A" a); Some (setPath "/d/A/x" x);
                   Some (setPath "/d/B" b)]), s2)
    /\ visits (trace s2)
       = visits (trace s)
           ++ [EvHandle 0 "/d" (Some d) None;
               EvHandle 1 "/d/A" (Some (setPath "/d/A" a)) None;
               EvHandle 2 "/d/A/x" (Some (setPath "/d/A/x" x)) None;
               EvHandle 1 "/d/B" (Some (setPath "/d/B" b)) None]
    /\ "/d/A" = joinPath "/d" (FileName a)
    /\ "/d/A/x" = joinPath "/d/A" (FileName x)
    /\ "/d/B" = joinPath "/d" (FileName b).
Proof.
  intros Hc Hres Hserved Ha Hx Hb Hinv Hfuel.
  assert (Hfolder : IsFolder d = true).
  { destruct (IsFolder d) eqn:E; [reflexivity|].
    pose proof (served_file _ _ Hserved E). discriminate. }
  pose proof (FileInfoByPath_sets_path P VS _ _ _ _ _ _ _ _ Hres) as Hpath.
  change (normalised "/d") with "/d" in Hpath.
  destruct (walk_of_a_served_folder (Some h) fuel "/d" s s1 d _ Hc Hres Hfolder
              Hserved Hinv Hfuel) as (s2 & Hrun & Hvis).
  rewrite Hpath in Hrun, Hvis.
  cbn [flat_map preorder visitsBelow map app calls handleCall fst snd] in Hrun, Hvis.
  rewrite Ha, Hx, Hb in Hrun, Hvis.
  exists s2. rewrite Ha, Hx, Hb. repeat split; assumption.
Qed.

End WalkFacts.

(** ** The walk of a served tree, on the small drive *)

Section RunsOfTheWalk.

Import Demo.

Lemma drive_lists_d :
  listsAs drive nat linkUp 0 client "drive" ed (map label [treeA; treeB]).
Proof.
  intros fuel [w v t] _ Hw. cbn in Hw. red in Hw. subst w.
  eexists. split; [destruct fuel; reflexivity|reflexivity].
Qed.

Lemma drive_lists_A :
  listsAs drive nat linkUp 0 client "drive" (label treeA) (map label (children treeA)).
Proof.
  intros fuel [w v t] _ Hw. cbn in Hw. red in Hw. subst w.
  eexists. split; [destruct fuel; reflexivity|reflexivity].
Qed.

Lemma drive_serves_d :
  served drive nat linkUp 0 client "drive" (Node ed [treeA; treeB]).
Proof.
  cbn [served]. change (IsFolder ed) with true. cbv iota.
  split; [exact drive_lists_d|].
  split; [|split; [reflexivity|exact I]].
  change (IsFolder (entity "a1" "A" "folder" "d1" 0)) with true. cbv iota.
  split; [exact drive_lists_A|].
  split; [reflexivity|exact I].
Qed.

Lemma walk_without_visitor_witness :
  let s1 := snd (FileInfoByPath 3 client "drive" "/d" (start Up)) in
  FileInfoByPath 3 client "drive" "/d" (start Up) = (Done (Some ed, None), s1) /\
  IsFolder ed = true /\
  (height (Node ed [treeA; treeB]) + 0 <= 3)%nat /\
  exists s2,
    FilesDirectoriesRecurseList 3 client "drive" "/d" None (start Up)
    = (Done (Some [Some eA; Some ex; Some eB]), s2)
    /\ visits (trace s2) = []
    /\ vstate s2 = 0%nat.
Proof.
  intros s1.
  assert (H1 : FileInfoByPath 3 client "drive" "/d" (start Up)
               = (Done (Some ed, None), s1)) by reflexivity.
  assert (H2 : IsFolder ed = true) by reflexivity.
  assert (H4 : linkUp (world s1)) by reflexivity.
  assert (H5 : (height (Node ed [treeA; treeB]) + 0 <= 3)%nat)
    by (cbn; lia).
  split; [exact H1|]. split; [exact H2|]. split; [exact H5|].
  exact (walk_without_visitor drive nat linkUp 0 client "drive" 3 "/d"
           (start Up) s1 ed [treeA; treeB] H1 H2 drive_serves_d H4 H5).
Defined.

Lemma walk_visits_in_preorder_witness :
  let s1 := snd (FileInfoByPath 3 client "drive" "/d" (start Up)) in
  (forall depth pth fd err v, fst (goOn depth pth fd err v) = true) /\
  FileInfoByPath 3 client "drive" "/d" (start Up) = (Done (Some ed, None), s1) /\
  (3 + 0 <= 3)%nat /\
  exists s2,
    FilesDirectoriesRecurseList 3 client "drive" "/d" (Some goOn) (start Up)
    = (Done (Some [Some eA; Some ex; Some eB]), s2)
    /\ visits (trace s2)
       = [EvHandle 0 "/d" (Some ed) None;
          EvHandle 1 "/d/A" (Some eA) None;
          EvHandle 2 "/d/A/x" (Some ex) None;
          EvHandle 1 "/d/B" (Some eB) None]
    /\ "/d/A" = joinPath "/d" "A"
    /\ "/d/A/x" = joinPath "/d/A" "x"
    /\ "/d/B" = joinPath "/d" "B".
Proof.
  intros s1.
  assert (H0 : forall depth pth fd err v, fst (goOn depth pth fd err v) = true)
    by reflexivity.
  assert (H1 : FileInfoByPath 3 client "drive" "/d" (start Up)
               = (Done (Some ed, None), s1)) by reflexivity.
  assert (H4 : linkUp (world s1)) by reflexivity.
  assert (H5 : (3 + 0 <= 3)%nat) by lia.
  split; [exact H0|]. split; [exact H1|]. split; [exact H5|].
  exact (walk_visits_in_preorder drive nat linkUp 0 client "drive" goOn 3
           (start Up) s1 ed (entity "a1" "A" "folder" "d1" 0)
           (entity "x1" "x" "file" "a1" 7) (entity "b1" "B" "file" "d1" 20)
           H0 H1 drive_serves_d eq_refl eq_refl eq_refl H4 H5).
Defined.

End RunsOfTheWalk.

(** * More properties *)

(** ** Aggregates *)

Section MoreAggregates.

Lemma sum_sizes_app (a b : FileList) :
  sum_sizes (a ++ b) = sum_sizes a + sum_sizes b.
Proof.
  induction a as [|[f|] a IH]; cbn [app sum_sizes]; lia.
Qed.

Lemma count_if_app (Q : FileEntity -> bool) (a b : FileList) :
  count_if Q (a ++ b) = count_if Q a + count_if Q b.
Proof.
  induction a as [|[f|] a IH]; cbn [app count_if]; lia.
Qed.

Lemma TotalSize_wrap_sum (fl : FileList) :
  TotalSize fl = Go.wrap64 (sum_sizes fl).
Proof.
  unfold TotalSize. change 0 with (Go.wrap64 0) at 1.
  now rewrite TotalSize_from_wrap.
Qed.

Lemma Count_from_wrap (fl : FileList) :
  forall fileN directoryN : Z,
    Count_from (Go.wrap64 fileN) (Go.wrap64 directoryN) fl
    = (Go.wrap64 (fileN + count_others fl),
       Go.wrap64 (directoryN + count_folders fl)).
Proof.
  unfold count_others, count_folders.
  induction fl as [|[f|] fl IH]; intros fileN directoryN;
    cbn [Count_from count_if].
  - now rewrite !Z.add_0_r.
  - destruct (IsFolder f); cbn [negb]; unfold Go.add64;
      rewrite GoFacts.wrap64_add_l, IH; f_equal; f_equal; lia.
  - apply IH.
Qed.

Lemma Count_wrap_counts (fl : FileList) :
  Count fl = (Go.wrap64 (count_others fl), Go.wrap64 (count_folders fl)).
Proof.
  unfold Count. change 0 with (Go.wrap64 0). now rewrite Count_from_wrap.
Qed.

Lemma wrap64_add (a b : Z) :
  Go.add64 (Go.wrap64 a) (Go.wrap64 b) = Go.wrap64 (a + b).
Proof.
  unfold Go.add64. rewrite GoFacts.wrap64_add_l.
  rewrite (Z.add_comm a), GoFacts.wrap64_add_l. f_equal. lia.
Qed.

(** X1: the total size of two lists put together is the [int64] sum of
    their total sizes, and their counts add up the same way. *)
Theorem TotalSize_Count_app (a b : FileList) :
  TotalSize (a ++ b) = Go.add64 (TotalSize a) (TotalSize b) /\
  Count (a ++ b)
  = (Go.add64 (fst (Count a)) (fst (Count b)),
     Go.add64 (snd (Count a)) (snd (Count b))).
Proof.
  rewrite !TotalSize_wrap_sum, !Count_wrap_counts. cbn [fst snd].
  rewrite !wrap64_add, sum_sizes_app.
  unfold count_others, count_folders. now rewrite !count_if_app.
Qed.

Lemma sum_sizes_Permutation (a b : FileList) :
  Permutation a b -> sum_sizes a = sum_sizes b.
Proof.
  induction 1 as [|x a b _ IH|x y a|a b c _ IH1 _ IH2].
  - reflexivity.
  - destruct x; cbn [sum_sizes]; lia.
  - destruct x, y; cbn [sum_sizes]; lia.
  - congruence.
Qed.

Lemma count_if_Permutation (Q : FileEntity -> bool) (a b : FileList) :
  Permutation a b -> count_if Q a = count_if Q b.
Proof.
  induction 1 as [|x a b _ IH|x y a|a b c _ IH1 _ IH2].
  - reflexivity.
  - destruct x; cbn [count_if]; lia.
  - destruct x, y; cbn [count_if]; lia.
  - congruence.
Qed.

(** X2: [TotalSize] and [Count] do not depend on the order of the list,
    wrap-around included. *)
Theorem TotalSize_Count_Permutation (a b : FileList) :
  Permutation a b ->
  TotalSize a = TotalSize b /\ Count a = Count b.
Proof.
  intros H. rewrite !TotalSize_wrap_sum, !Count_wrap_counts.
  unfold count_others, count_folders.
  rewrite (sum_sizes_Permutation a b H).
  rewrite (count_if_Permutation _ a b H), (count_if_Permutation _ a b H).
  split; reflexivity.
Qed.

Lemma TotalSize_Count_Permutation_witness :
  let a := [Some (sized "a" "file" 20); None; Some (sized "b" "folder" 0)] in
  let b := [None; Some (sized "b" "folder" 0); Some (sized "a" "file" 20)] in
  Permutation a b /\ TotalSize a = TotalSize b /\ Count a = Count b.
Proof.
  intros a b.
  assert (H : Permutation a b).
  { subst a b. apply Permutation_cons_app with (l1 := [None; Some (sized "b" "folder" 0)])
                                                 (l2 := []).
    rewrite app_nil_r. apply Permutation_refl. }
  split; [exact H|]. exact (TotalSize_Count_Permutation a b H).
Defined.

Lemma sum_sizes_present (fl : FileList) : sum_sizes (present fl) = sum_sizes fl.
Proof.
  unfold present. induction fl as [|[f|] fl IH]; cbn [filter sum_sizes]; lia.
Qed.

Lemma count_if_present (Q : FileEntity -> bool) (fl : FileList) :
  count_if Q (present fl) = count_if Q fl.
Proof.
  unfold present. induction fl as [|[f|] fl IH]; cbn [filter count_if]; lia.
Qed.

(** X3: nil entries count for nothing: [TotalSize] and [Count] are the
    same on a list and on the list without its nil entries, and on a
    list of nil entries only they are 0 and (0, 0). *)
Theorem TotalSize_Count_skip_nil (fl : FileList) :
  TotalSize (present fl) = TotalSize fl /\
  Count (present fl) = Count fl /\
  (present fl = [] -> TotalSize fl = 0 /\ Count fl = (0, 0)).
Proof.
  assert (H1 : TotalSize (present fl) = TotalSize fl).
  { now rewrite !TotalSize_wrap_sum, sum_sizes_present. }
  assert (H2 : Count (present fl) = Count fl).
  { rewrite !Count_wrap_counts. unfold count_others, count_folders.
    now rewrite !count_if_present. }
  split; [exact H1|]. split; [exact H2|].
  intros E. rewrite <- H1, <- H2, E. split; reflexivity.
Qed.

End MoreAggregates.

(** ** The lister *)

Section MoreLister.

Variable P : Platform.
Variable VS : Type.

Lemma len_str_pos (s : string) : (0 <? Go.len_str s) = negb (s =? "")%string.
Proof. destruct s; reflexivity. Qed.

Lemma eqb_empty_false (s : string) : (s =? "")%string = false <-> s <> "".
Proof.
  destruct s; cbn; split; intros H.
  - discriminate.
  - now contradiction H.
  - discriminate.
  - reflexivity.
Qed.

(** What [fileListReq] does to the state: one request is added to the
    trace, and nothing else but the remote side changes. *)
Lemma fileListReq_state (p : PanClient P) (param : FileListParam) (s : St P VS) :
  exists postData,
    postData
    = listPostData
        (if (OrderDirection
               (if (OrderBy param =? "")%string
                then setOrderBy FileOrderByUpdatedAt param else param) =? "")%string
         then setOrderDirection FileOrderDirectionDesc
                (if (OrderBy param =? "")%string
                 then setOrderBy FileOrderByUpdatedAt param else param)
         else (if (OrderBy param =? "")%string
               then setOrderBy FileOrderByUpdatedAt param else param))
        (if (p_ParentFileId param =? "")%string then DefaultRootParentFileId
         else p_ParentFileId param)
        (if Limit param <=? 0 then 100 else Limit param)
    /\ trace (snd (fileListReq p param s))
       = trace s
           ++ [EvFetch "POST" (API_URL P ++ "/v2/file/list")%string postData
                 (AddCommonHeader P
                    [("authorization", GetAuthorizationStr P (webToken P p))])]
    /\ vstate (snd (fileListReq p param s)) = vstate s.
Proof.
  eexists. split; [reflexivity|].
  unfold fileListReq, bind, doFetch.
  match goal with |- context [Fetch P ?a ?b ?c ?d ?e] =>
    destruct (Fetch P a b c d e) as [[err|body] w'] end.
  - split; reflexivity.
  - destruct (ParseCommonApiError P body); [split; reflexivity|].
    destruct (UnmarshalFileList P body); split; reflexivity.
Qed.


(** [fileListReq] ends with a page or with an error, never with both or
    neither, and leaves the parameter with its order defaults. *)
Lemma fileListReq_cases (p : PanClient P) (param : FileListParam) (s : St P VS) :
  exists s',
    (exists flr,
        fileListReq p param s = (Done (withOrderDefaults param, (Some flr, None)), s'))
    \/ (exists e,
           fileListReq p param s = (Done (withOrderDefaults param, (None, Some e)), s')).
Proof.
  unfold fileListReq, bind, doFetch, withOrderDefaults.
  match goal with |- context [Fetch P ?a ?b ?c ?d ?e] =>
    destruct (Fetch P a b c d e) as [[err|body] w'] end.
  - eexists. right. eexists. reflexivity.
  - destruct (ParseCommonApiError P body) as [e|].
    + eexists. right. eexists. reflexivity.
    + destruct (UnmarshalFileList P body) as [err|flr].
      * eexists. right. eexists. reflexivity.
      * eexists. left. eexists. reflexivity.
Qed.

Lemma appendItems_entitiesOf (items : list (option fileEntityResult)) :
  forall acc, appendItems P items acc = acc ++ entitiesOf P items.
Proof.
  induction items as [|[it|] items IH]; intros acc; cbn [appendItems entitiesOf flat_map].
  - now rewrite app_nil_r.
  - rewrite IH, <- app_assoc. reflexivity.
  - apply IH.
Qed.

Lemma entitiesOf_present (items : list (option fileEntityResult)) :
  Forall (fun x => x <> None) (entitiesOf P items).
Proof.
  induction items as [|[it|] items IH]; cbn [entitiesOf flat_map app].
  - constructor.
  - constructor; [discriminate|exact IH].
  - exact IH.
Qed.

Lemma entitiesOf_length (items : list (option fileEntityResult)) :
  (List.length (entitiesOf P items) <= List.length items)%nat.
Proof.
  induction items as [|[it|] items IH]; cbn [entitiesOf flat_map app length].
  - lia.
  - fold (entitiesOf P items). lia.
  - fold (entitiesOf P items). lia.
Qed.

Lemma entitiesOf_map (items : list (option fileEntityResult)) :
  Forall (fun it => it <> None) items ->
  entitiesOf P items = map (createFileEntity P) items.
Proof.
  induction 1 as [|[it|] items Hit _ IH]; cbn [entitiesOf flat_map app map].
  - reflexivity.
  - fold (entitiesOf P items). now rewrite IH.
  - contradiction.
Qed.

(** [FileList] changes the state as its one call of [fileListReq] does. *)
Lemma FileList'_state (p : PanClient P) (param : FileListParam) (s : St P VS) :
  snd (FileList' p param s) = snd (fileListReq p param s).
Proof.
  unfold FileList', bind.
  destruct (fileListReq p param s) as [[[q [[flr|] [e|]]]| |] s1]; reflexivity.
Qed.

Lemma requests_snoc_fetch (t : list (Event P)) m u d h :
  requests (t ++ [EvFetch m u d h]) = requests t ++ [EvFetch m u d h].
Proof. unfold requests. now rewrite filter_app. Qed.

Lemma FileList'_one_request (p : PanClient P) (param : FileListParam) (s : St P VS) :
  List.length (requests (trace (snd (FileList' p param s))))
  = S (List.length (requests (trace s))).
Proof.
  rewrite FileList'_state.
  destruct (fileListReq_state p param s) as (pd & _ & Ht & _).
  rewrite Ht, requests_snoc_fetch, length_app. cbn. lia.
Qed.

(** How a call of [FileList] ends. *)
Lemma FileList'_run (p : PanClient P) (param : FileListParam) (s : St P VS) :
  exists page s',
    FileList' p param s = (Done (withOrderDefaults param, (Some page, None)), s')
    /\ Forall (fun x => x <> None) (fl_FileList page).
Proof.
  destruct (fileListReq_cases p param s) as (s' & [[flr H]|[e H]]);
    unfold FileList', bind; rewrite H.
  - eexists. eexists. split; [reflexivity|]. cbn [fl_FileList].
    rewrite appendItems_entitiesOf. apply entitiesOf_present.
  - eexists. eexists. split; [reflexivity|]. constructor.
Qed.

(** X5: [FileList] always runs to its end, whatever the remote side
    does: it sends one request and returns a page that is not nil, with
    no nil entry, and a nil error.  Through the pointer it leaves the
    parameter with order fields that are not empty, and with the drive,
    the parent, the limit and the marker as they were. *)
Theorem FileList'_completes (p : PanClient P) (param : FileListParam)
        (s : St P VS) :
  exists param' page s',
    FileList' p param s = (Done (param', (Some page, None)), s')
    /\ Forall (fun x => x <> None) (fl_FileList page)
    /\ List.length (requests (trace s')) = S (List.length (requests (trace s)))
    /\ OrderBy param' <> "" /\ OrderDirection param' <> ""
    /\ (OrderBy param <> "" -> OrderBy param' = OrderBy param)
    /\ (OrderDirection param <> "" -> OrderDirection param' = OrderDirection param)
    /\ p_DriveId param' = p_DriveId param
    /\ p_ParentFileId param' = p_ParentFileId param
    /\ Limit param' = Limit param
    /\ Marker param' = Marker param.
Proof.
  destruct (FileList'_run p param s) as (page & s' & Hrun & Hnil).
  pose proof (FileList'_one_request p param s) as Hreq.
  rewrite Hrun in Hreq. cbn [snd] in Hreq.
  exists (withOrderDefaults param), page, s'.
  split; [exact Hrun|]. split; [exact Hnil|]. split; [exact Hreq|].
  destruct param as [ob od did pid lim mk]. unfold withOrderDefaults.
  cbn [OrderBy OrderDirection p_DriveId p_ParentFileId Limit Marker].
  destruct (ob =? "")%string eqn:Eob; destruct (od =? "")%string eqn:Eod;
    cbn [setOrderBy setOrderDirection OrderBy OrderDirection p_DriveId
           p_ParentFileId Limit Marker];
    rewrite ?Eod;
    cbn [setOrderBy setOrderDirection OrderBy OrderDirection p_DriveId
           p_ParentFileId Limit Marker];
    repeat split;
    try discriminate; try (now apply eqb_empty_false);
    try (intros Hne; apply eqb_empty_false in Hne; congruence).
Qed.

(** X6: when the request succeeds, the page of [FileList] holds the
    entity of every record that is not nil, in the order of the records,
    and the marker of the response. *)
Theorem FileList'_maps_the_records (p : PanClient P) (param param' : FileListParam)
        (flr : fileListResult) (s s' : St P VS) :
  fileListReq p param s = (Done (param', (Some flr, None)), s') ->
  FileList' p param s
  = (Done (param',
           (Some (mkFileListResult (entitiesOf P (Items flr)) (r_NextMarker flr)),
            None)), s')
  /\ (List.length (entitiesOf P (Items flr)) <= List.length (Items flr))%nat
  /\ (Forall (fun it => it <> None) (Items flr) ->
      entitiesOf P (Items flr) = map (createFileEntity P) (Items flr)).
Proof.
  intros H. split; [|split].
  - unfold FileList', bind. rewrite H. cbn [fl_FileList].
    now rewrite appendItems_entitiesOf.
  - apply entitiesOf_length.
  - apply entitiesOf_map.
Qed.

(** The loop of [FileListGetAll] keeps the list free of nil entries. *)
Lemma morePages_present (fuel : nat) (p : PanClient P) :
  forall internalParam result fileList (s s' : St P VS) r err,
    Forall (fun x => x <> None) fileList ->
    morePages fuel p internalParam result fileList s = (Done (r, err), s') ->
    exists l, r = Some l /\ Forall (fun x => x <> None) l.
Proof.
  induction fuel as [|fuel IH]; intros internalParam result fileList s s' r err Hnil;
    cbn [morePages]; destruct (0 <? Go.len_str (NextMarker result));
    try discriminate;
    try (intros H; inversion H; subst; eexists; split; [reflexivity|exact Hnil]).
  destruct (FileList'_run p (setMarker (NextMarker result) internalParam) s)
    as (page & s1 & Hrun & Hpage).
  rewrite (bind_Done P VS _ _ _ _ _ Hrun).
  apply IH. apply Forall_app. split; assumption.
Qed.

Lemma FileListGetAll_present (fuel : nat) (p : PanClient P)
      (param : FileListParam) (s s' : St P VS)
      (r : option FileList) (err : option (ApiError P)) :
  FileListGetAll fuel p param s = (Done (r, err), s') ->
  exists l, r = Some l /\ Forall (fun x => x <> None) l.
Proof.
  unfold FileListGetAll.
  match goal with |- context [FileList' p ?q] =>
    destruct (FileList'_run p q s) as (page & s1 & Hrun & Hpage) end.
  rewrite (bind_Done P VS _ _ _ _ _ Hrun).
  apply morePages_present. exact Hpage.
Qed.

(** X7: a list returned by [FileListGetAll] is not nil, has no nil entry,
    and comes with a nil error. *)
Theorem FileListGetAll_result_is_present (fuel : nat) (p : PanClient P)
        (param : FileListParam) (s s' : St P VS)
        (r : option FileList) (err : option (ApiError P)) :
  FileListGetAll fuel p param s = (Done (r, err), s') ->
  err = None /\ exists l, r = Some l /\ Forall (fun x => x <> None) l.
Proof.
  intros H. split; [eapply FileListGetAll_error_is_nil; eauto|].
  eapply FileListGetAll_present; eauto.
Qed.

Lemma morePages_no_panic (fuel : nat) (p : PanClient P) :
  forall internalParam result fileList (s : St P VS),
    fst (morePages fuel p internalParam result fileList s) <> Panic.
Proof.
  induction fuel as [|fuel IH]; intros internalParam result fileList s;
    cbn [morePages]; destruct (0 <? Go.len_str (NextMarker result));
    try discriminate.
  destruct (FileList'_run p (setMarker (NextMarker result) internalParam) s)
    as (page & s1 & Hrun & _).
  rewrite (bind_Done P VS _ _ _ _ _ Hrun). apply IH.
Qed.

Lemma FileListGetAll_no_panic (fuel : nat) (p : PanClient P)
      (param : FileListParam) (s : St P VS) :
  fst (FileListGetAll fuel p param s) <> Panic.
Proof.
  unfold FileListGetAll.
  match goal with |- context [FileList' p ?q] =>
    destruct (FileList'_run p q s) as (page & s1 & Hrun & _) end.
  rewrite (bind_Done P VS _ _ _ _ _ Hrun). apply morePages_no_panic.
Qed.

Lemma marker_test (m : string) :
  (0 <? Go.len_str m) = false <-> m = "".
Proof.
  rewrite len_str_pos. destruct m; cbn; split; intros H;
    try reflexivity; discriminate.
Qed.

(** The loop of [FileListGetAll] over the pages that follow. *)
Lemma morePages_Pages (p : PanClient P) ip result (s s' : St P VS) pages :
  Pages p ip result s pages s' ->
  forall (fuel : nat) (fileList : FileList),
    (List.length pages <= fuel)%nat ->
    morePages fuel p ip result fileList s
    = (Done (Some (fileList ++ concat pages), None), s')
    /\ List.length (requests (trace s'))
       = (List.length (requests (trace s)) + List.length pages)%nat.
Proof.
  induction 1 as [ip result s Hm|ip result s ip' result' s1 rest s2 Hm Hrun _ IH];
    intros fuel fileList Hfuel.
  - apply marker_test in Hm.
    split; [|cbn; lia].
    destruct fuel; cbn [morePages]; rewrite Hm; cbn [concat];
      now rewrite app_nil_r.
  - assert (Hm' : (0 <? Go.len_str (NextMarker result)) = true).
    { destruct (0 <? Go.len_str (NextMarker result)) eqn:E; [reflexivity|].
      apply marker_test in E. contradiction. }
    destruct fuel as [|fuel]; [cbn in Hfuel; lia|].
    cbn [morePages]. rewrite Hm'.
    rewrite (bind_Done P VS _ _ _ _ _ Hrun).
    destruct (IH fuel (fileList ++ fl_FileList result')
                ltac:(cbn in Hfuel; lia)) as [Hloop Hreq].
    split.
    + rewrite Hloop. cbn [concat]. now rewrite app_assoc.
    + pose proof (FileList'_one_request p
                    (setMarker (NextMarker result) ip) s) as H1.
      rewrite Hrun in H1. cbn [snd] in H1. rewrite Hreq, H1.
      cbn [length]. lia.
Qed.

(** X8: [FileListGetAll] follows the markers: when the first page and
    the pages after it arrive, the last of them with an empty marker, the
    result is the entities of all pages, page after page, and one
    request was sent for each page. *)
Theorem FileListGetAll_concatenates_pages (fuel : nat) (p : PanClient P)
        (param ip : FileListParam) (first : FileListResult)
        (pages : list FileList) (s s1 s2 : St P VS) :
  FileList' p (firstParam param) s = (Done (ip, (Some first, None)), s1) ->
  Pages p ip first s1 pages s2 ->
  (List.length pages <= fuel)%nat ->
  FileListGetAll fuel p param s
  = (Done (Some (fl_FileList first ++ concat pages), None), s2)
  /\ List.length (requests (trace s2))
     = (List.length (requests (trace s)) + 1 + List.length pages)%nat.
Proof.
  intros Hfirst Hpages Hfuel.
  destruct (morePages_Pages p ip first s1 s2 pages Hpages fuel
              ([] ++ fl_FileList first) Hfuel) as [Hloop Hreq].
  split.
  - unfold FileListGetAll.
    replace (mkFileListParam _ _ _ _ _ _) with param by (now destruct param).
    fold (firstParam param).
    rewrite (bind_Done P VS _ _ _ _ _ Hfirst). exact Hloop.
  - pose proof (FileList'_one_request p (firstParam param) s) as H1.
    rewrite Hfirst in H1. cbn [snd] in H1. rewrite Hreq, H1. lia.
Qed.

(** X9: when the first page arrives with a marker and the request for
    the second page fails, [FileListGetAll] returns the entities of the
    first page with a nil error. *)
Theorem FileListGetAll_keeps_pages_before_failure (fuel : nat) (p : PanClient P)
        (param ip ip' : FileListParam) (first : FileListResult)
        (e : ApiError P) (s s1 s2 : St P VS) :
  FileList' p (firstParam param) s = (Done (ip, (Some first, None)), s1) ->
  NextMarker first <> "" ->
  fileListReq p (setMarker (NextMarker first) ip) s1
  = (Done (ip', (None, Some e)), s2) ->
  FileListGetAll (S fuel) p param s = (Done (Some (fl_FileList first), None), s2).
Proof.
  intros Hfirst Hm Hfail.
  pose proof (FileList'_hides_failure P VS _ _ _ _ _ _ Hfail) as Hpage.
  assert (Hpages : Pages p ip first s1 [[]] s2).
  { eapply Pages_more with (result' := mkFileListResult [] "");
      [exact Hm|exact Hpage|]. now apply Pages_last. }
  destruct (morePages_Pages p ip first s1 s2 [[]] Hpages (S fuel)
              ([] ++ fl_FileList first) ltac:(cbn; lia)) as [Hloop _].
  unfold FileListGetAll.
  replace (mkFileListParam _ _ _ _ _ _) with param by (now destruct param).
  fold (firstParam param).
  rewrite (bind_Done P VS _ _ _ _ _ Hfirst), Hloop.
  cbn [concat app]. now rewrite app_nil_r.
Qed.

Lemma count_present_length (l : FileList) :
  Forall (fun x => x <> None) l -> count_present l = Go.len l.
Proof.
  unfold count_present, Go.len.
  induction 1 as [|[e|] l Hx _ IH]; cbn [count_if length].
  - reflexivity.
  - rewrite IH. lia.
  - contradiction.
Qed.

(** X10: on a list returned by [FileListGetAll], the two results of
    [Count] add up to the length of the list. *)
Theorem Count_of_a_listing (fuel : nat) (p : PanClient P)
        (param : FileListParam) (s s' : St P VS) (l : FileList)
        (err : option (ApiError P)) :
  FileListGetAll fuel p param s = (Done (Some l, err), s') ->
  Go.len l <= Go.max_int64 ->
  fst (Count l) + snd (Count l) = Go.len l.
Proof.
  intros Hrun Hlen.
  assert (Hnil : Forall (fun x => x <> None) l).
  { destruct (FileListGetAll_present _ _ _ _ _ _ _ Hrun) as (l' & El & Hl).
    inversion El. now subst. }
  pose proof (count_if_bounds (fun f => negb (IsFolder f)) l) as B1.
  pose proof (count_if_bounds IsFolder l) as B2.
  unfold Count. rewrite Count_from_exact; try lia.
  - cbn [fst snd]. rewrite <- (count_present_length l Hnil), count_present_split.
    lia.
  - unfold count_others. lia.
  - unfold count_folders. lia.
Qed.

End MoreLister.

(** ** The path resolver *)

Section MoreResolver.

Variable P : Platform.
Variable VS : Type.

Lemma split_from_nonempty (sep : string) :
  forall (s : string) (skip : nat) (cur : list ascii),
    Go.split_from sep skip cur s <> [].
Proof.
  induction s as [|c s IH]; intros skip cur; cbn [Go.split_from].
  - discriminate.
  - destruct skip; [|apply IH].
    destruct (Go.HasPrefix (String c s) sep); [discriminate|apply IH].
Qed.

Lemma index_in_range {A} (l : list A) (i : Z) :
  0 <= i < Go.len l -> exists x, Go.index l i = Some x.
Proof.
  unfold Go.index, Go.len. intros [H0 H1].
  destruct (i <? 0) eqn:E; [apply Z.ltb_lt in E; lia|].
  destruct (nth_error l (Z.to_nat i)) as [x|] eqn:En; [now exists x|].
  apply nth_error_None in En. lia.
Qed.

(** The scan over the children picks the first one with the name of the
    segment. *)
Lemma scanChildren_firstNamed {R}
      (descend : FileEntity -> M P VS (option R * option (ApiError P)))
      (pathSlice : list string) (index : Z) (segment : string) (l : FileList) :
  Go.index pathSlice index = Some segment ->
  Forall (fun x => x <> None) l ->
  scanChildren descend pathSlice index l
  = match firstNamed segment l with
    | Some e => descend e
    | None => ret (None, Some (fileNotFound P))
    end.
Proof.
  intros Hidx. induction 1 as [|[e|] l Hx _ IH]; cbn [scanChildren firstNamed].
  - reflexivity.
  - rewrite Hidx. destruct (FileName e =? segment)%string; [reflexivity|exact IH].
  - contradiction.
Qed.

(** How a result of the resolver looks: an entity and no error, or no
    entity and the error "not found". *)
Lemma scanChildren_shape
      (descend : FileEntity -> M P VS (option FileEntity * option (ApiError P)))
      (pathSlice : list string) (index : Z) :
  (forall e s fi err s',
      descend e s = (Done (fi, err), s') ->
      (fi <> None /\ err = None) \/ (fi = None /\ err = Some (fileNotFound P))) ->
  forall (l : FileList) (s s' : St P VS) fi err,
    scanChildren descend pathSlice index l s = (Done (fi, err), s') ->
    (fi <> None /\ err = None) \/ (fi = None /\ err = Some (fileNotFound P)).
Proof.
  intros Hd. induction l as [|[e|] l IH]; intros s s' fi err; cbn [scanChildren].
  - intros H. inversion H. right. split; reflexivity.
  - destruct (Go.index pathSlice index) as [segment|]; [|discriminate].
    destruct (FileName e =? segment)%string; [apply Hd|apply IH].
  - discriminate.
Qed.

Lemma getFileInfoByPath_shape (fuel : nat) (p : PanClient P) (driveId : string) :
  forall index pathSlice parentFileInfo (s s' : St P VS) fi err,
    getFileInfoByPath fuel p driveId index pathSlice parentFileInfo s
    = (Done (fi, err), s') ->
    (fi <> None /\ err = None) \/ (fi = None /\ err = Some (fileNotFound P)).
Proof.
  induction fuel as [|fuel IH]; intros index pathSlice parentFileInfo s s' fi err;
    cbn [getFileInfoByPath]; [discriminate|].
  destruct parentFileInfo as [parent|].
  - destruct (Go.len pathSlice <=? index).
    + intros H. inversion H. left. split; [discriminate|reflexivity].
    + unfold bind at 1.
      destruct (FileListGetAll fuel p _ s) as [[[r e]| |] s1] eqn:E;
        try discriminate.
      pose proof (FileListGetAll_error_is_nil P VS _ _ _ _ _ _ _ E). subst e.
      destruct r as [[|x l]|].
      * intros H. inversion H. right. split; reflexivity.
      * apply scanChildren_shape. intros e0 s0 fi0 err0 s0'. apply IH.
      * intros H. inversion H. right. split; reflexivity.
  - destruct ((index =? 0) && (Go.len pathSlice =? 1)).
    + intros H. inversion H. left. split; [discriminate|reflexivity].
    + apply IH.
Qed.

(** X11: when [FileInfoByPath] returns, it returns an entity and a nil
    error, or no entity and one of two errors: the path is not absolute,
    or the file is not found.  No other error leaves the resolver: a
    listing that failed on the way is taken as an empty folder. *)
Theorem FileInfoByPath_entity_or_error (fuel : nat) (p : PanClient P)
        (driveId pathStr : string) (s s' : St P VS)
        (fi : option FileEntity) (err : option (ApiError P)) :
  FileInfoByPath fuel p driveId pathStr s = (Done (fi, err), s') ->
  (exists e, fi = Some e /\ err = None)
  \/ (fi = None
      /\ (err = Some (notAbsolute P) \/ err = Some (fileNotFound P))).
Proof.
  unfold FileInfoByPath.
  set (p0 := if (pathStr =? "")%string then "/" else pathStr).
  destruct (negb (Go.IsAbs p0)).
  { intros H. inversion H. right. split; [reflexivity|left; reflexivity]. }
  set (p1 := if 1 <? Go.len_str p0 then Go.Clean p0 else p0).
  assert (Hres : forall pathSlice,
             bind (getFileInfoByPath fuel p driveId 0 pathSlice None)
               (fun x => let '(fileInfo, error) := x in
                         ret (option_map (setPath p1) fileInfo, error)) s
             = (Done (fi, err), s') ->
             (exists e, fi = Some e /\ err = None)
             \/ (fi = None
                 /\ (err = Some (notAbsolute P) \/ err = Some (fileNotFound P)))).
  { intros pathSlice. unfold bind.
    destruct (getFileInfoByPath fuel p driveId 0 pathSlice None s)
      as [[[fi0 err0]| |] s1] eqn:E; try discriminate.
    apply getFileInfoByPath_shape in E. intros H. inversion H. subst.
    destruct E as [[Hfi Herr]|[Hfi Herr]]; subst.
    - left. destruct fi0 as [e0|]; [|contradiction]. eexists. split; reflexivity.
    - right. split; [reflexivity|right; reflexivity]. }
  destruct (p1 =? "/")%string; [apply Hres|].
  destruct (Go.index _ 0); [|discriminate].
  destruct (negb _); [|apply Hres].
  intros H. inversion H. right. split; [reflexivity|left; reflexivity].
Qed.

Lemma add64_succ (i : Z) :
  0 <= i < Go.max_int64 -> Go.add64 i 1 = i + 1.
Proof.
  intros H. unfold Go.add64. apply GoFacts.wrap64_small.
  GoFacts.int64_consts. lia.
Qed.

Lemma getFileInfoByPath_no_panic (fuel : nat) (p : PanClient P) (driveId : string) :
  forall index pathSlice parentFileInfo (s : St P VS),
    Go.len pathSlice <= Go.max_int64 ->
    0 <= index <= Go.max_int64 ->
    (parentFileInfo = None -> index < Go.max_int64) ->
    fst (getFileInfoByPath fuel p driveId index pathSlice parentFileInfo s)
    <> Panic.
Proof.
  induction fuel as [|fuel IH];
    intros index pathSlice parentFileInfo s Hlen Hidx Hnone;
    cbn [getFileInfoByPath]; [discriminate|].
  destruct parentFileInfo as [parent|].
  - destruct (Go.len pathSlice <=? index) eqn:Ele; [discriminate|].
    apply Z.leb_gt in Ele.
    pose proof (FileListGetAll_no_panic P VS fuel p
                  (mkFileListParam "" "" driveId (FileId parent) 0 "") s) as Hnp.
    unfold bind at 1.
    destruct (FileListGetAll fuel p _ s) as [[[r e]| |] s1] eqn:E;
      [|now contradiction Hnp|discriminate].
    pose proof (FileListGetAll_error_is_nil P VS _ _ _ _ _ _ _ E). subst e.
    destruct (FileListGetAll_present P VS _ _ _ _ _ _ _ E) as (l & El & Hl).
    subst r. destruct l as [|x l]; [discriminate|].
    destruct (index_in_range pathSlice index ltac:(lia)) as (seg & Hseg).
    rewrite (scanChildren_firstNamed _ _ _ _ _ Hseg Hl).
    destruct (firstNamed seg (x :: l)); [|discriminate].
    apply IH; [exact Hlen| |discriminate].
    rewrite add64_succ by lia. lia.
  - destruct ((index =? 0) && (Go.len pathSlice =? 1)); [discriminate|].
    specialize (Hnone eq_refl).
    apply IH; [exact Hlen| |discriminate].
    rewrite add64_succ by lia. lia.
Qed.

Lemma FileInfoByPath_never_panics_aux (fuel : nat) (p : PanClient P)
        (driveId pathStr : string) (s : St P VS) :
  Go.len (Go.Split (normalised pathStr) PathSeparator) <= Go.max_int64 ->
  fst (FileInfoByPath fuel p driveId pathStr s) <> Panic.
Proof.
  intros Hlen. unfold FileInfoByPath. fold (normalised pathStr).
  destruct (negb (Go.IsAbs _)); [discriminate|].
  assert (Hres : forall pathSlice,
             Go.len pathSlice <= Go.max_int64 ->
             fst (bind (getFileInfoByPath fuel p driveId 0 pathSlice None)
                    (fun x => let '(fileInfo, error) := x in
                              ret (option_map (setPath (normalised pathStr)) fileInfo,
                                   error)) s) <> Panic).
  { intros pathSlice Hl. unfold bind.
    pose proof (getFileInfoByPath_no_panic fuel p driveId 0 pathSlice None s Hl
                  ltac:(GoFacts.int64_consts; lia)
                  ltac:(intros _; GoFacts.int64_consts; lia)) as Hnp.
    destruct (getFileInfoByPath fuel p driveId 0 pathSlice None s)
      as [[[fi er]| |] s1]; [discriminate|now contradiction Hnp|discriminate]. }
  destruct (normalised pathStr =? "/")%string.
  - apply Hres. GoFacts.int64_consts. cbn. lia.
  - pose proof (split_from_nonempty PathSeparator (normalised pathStr) O []) as Hne.
    fold (Go.Split (normalised pathStr) PathSeparator) in Hne.
    destruct (Go.Split (normalised pathStr) PathSeparator) as [|first rest] eqn:Es;
      [contradiction|].
    cbn [Go.index Z.ltb Z.compare Z.to_nat nth_error].
    destruct (negb _); [discriminate|]. apply Hres. exact Hlen.
Qed.

(** X12: [FileInfoByPath] never panics, whatever the path and whatever
    the remote side answers: no nil entity is looked into and no segment
    is read out of range; and every listing it asks for is one of
    [FileListGetAll], which does not panic either.  (A Go slice has at
    most 2^63 - 1 elements.) *)
Theorem FileInfoByPath_never_panics (fuel : nat) (p : PanClient P)
        (driveId pathStr : string) (s : St P VS) :
  Go.len (Go.Split (normalised pathStr) PathSeparator) <= Go.max_int64 ->
  fst (FileInfoByPath fuel p driveId pathStr s) <> Panic
  /\ forall param, fst (@FileListGetAll P VS fuel p param s) <> Panic.
Proof.
  intros Hlen. split.
  - now apply FileInfoByPath_never_panics_aux.
  - intros param. apply FileListGetAll_no_panic.
Qed.

Lemma Clean_rooted (path : string) :
  Go.IsAbs path = true -> Go.IsAbs (Go.Clean path) = true.
Proof.
  destruct path as [|c rest]; [discriminate|].
  cbn [Go.IsAbs]. intros Hc. unfold Go.Clean. rewrite Hc. reflexivity.
Qed.

(** X13: the entity [FileInfoByPath] returns carries as its [Path] the
    path it was asked for in normal form ([path.Clean] of it, ["/"] for
    the empty path), which is absolute: two spellings of one path give
    the same [Path]. *)
Theorem FileInfoByPath_path_is_normal (fuel : nat) (p : PanClient P)
        (driveId pathStr : string) (s s' : St P VS) (e : FileEntity)
        (err : option (ApiError P)) :
  FileInfoByPath fuel p driveId pathStr s = (Done (Some e, err), s') ->
  Path e = normalised pathStr /\ Go.IsAbs (Path e) = true.
Proof.
  intros H.
  pose proof (FileInfoByPath_sets_path P VS _ _ _ _ _ _ _ _ H) as Hp.
  split; [exact Hp|]. rewrite Hp. revert H. clear Hp.
  unfold FileInfoByPath, normalised.
  set (p0 := if (pathStr =? "")%string then "/" else pathStr).
  destruct (Go.IsAbs p0) eqn:Habs; cbn [negb]; [intros _|intros H; inversion H].
  destruct (1 <? Go.len_str p0); [now apply Clean_rooted|exact Habs].
Qed.

(** The listing of the root folder the resolver asks for. *)
Lemma getFileInfoByPath_first_segment (fuel : nat) (p : PanClient P)
      (driveId : string) (segment : string) (rest : list string)
      (l : FileList) (s s1 : St P VS) :
  FileListGetAll fuel p (mkFileListParam "" "" driveId DefaultRootParentFileId 0 "") s
  = (Done (Some l, None), s1) ->
  getFileInfoByPath (S (S fuel)) p driveId 0 ("" :: segment :: rest) None s
  = match firstNamed segment l with
    | Some e =>
        getFileInfoByPath fuel p driveId 2 ("" :: segment :: rest) (Some e) s1
    | None => (Done (None, Some (fileNotFound P)), s1)
    end.
Proof.
  intros Hlist.
  destruct (FileListGetAll_present P VS _ _ _ _ _ _ _ Hlist) as (l' & El & Hl).
  inversion El. subst l'.
  cbn [getFileInfoByPath].
  replace ((0 =? 0) && (Go.len ("" :: segment :: rest) =? 1)) with false.
  2:{ unfold Go.len. cbn [length]. symmetry. apply andb_false_iff. right.
      apply Z.eqb_neq. lia. }
  change (Go.add64 0 1) with 1.
  replace (Go.len ("" :: segment :: rest) <=? 1) with false.
  2:{ unfold Go.len. cbn [length]. symmetry. apply Z.leb_gt. lia. }
  change (FileId NewFileEntityForRootDir) with DefaultRootParentFileId.
  rewrite (bind_Done P VS _ _ _ _ _ Hlist).
  destruct l as [|x l].
  - reflexivity.
  - rewrite (scanChildren_firstNamed _ ("" :: segment :: rest) 1 segment
               (x :: l) eq_refl Hl).
    destruct (firstNamed segment (x :: l)); reflexivity.
Qed.

(** X14: when the listing of the root folder has no entity with the
    name of the first segment of the path, [FileInfoByPath] returns no
    entity and the error "file not found", after that one listing. *)
Theorem FileInfoByPath_not_found (fuel : nat) (p : PanClient P)
        (driveId pathStr segment : string) (rest : list string)
        (l : FileList) (s s1 : St P VS) :
  Go.IsAbs pathStr = true ->
  normalised pathStr <> "/" ->
  Go.Split (normalised pathStr) PathSeparator = "" :: segment :: rest ->
  FileListGetAll fuel p (mkFileListParam "" "" driveId DefaultRootParentFileId 0 "") s
  = (Done (Some l, None), s1) ->
  firstNamed segment l = None ->
  FileInfoByPath (S (S fuel)) p driveId pathStr s
  = (Done (None, Some (fileNotFound P)), s1).
Proof.
  intros Habs Hroot Hsplit Hlist Hnone.
  unfold FileInfoByPath. fold (normalised pathStr).
  assert (Hp0 : (if (pathStr =? "")%string then "/" else pathStr) = pathStr).
  { destruct pathStr; [discriminate|reflexivity]. }
  rewrite Hp0, Habs. cbn [negb].
  apply String.eqb_neq in Hroot. rewrite Hroot, Hsplit.
  cbn [Go.index Z.ltb Z.compare Z.to_nat nth_error String.eqb negb].
  rewrite (bind_Done P VS _ _ _ _ _
             (eq_trans (getFileInfoByPath_first_segment fuel p driveId segment
                          rest l s s1 Hlist)
                       ltac:(rewrite Hnone; reflexivity))).
  reflexivity.
Qed.

(** X15: when the path has one segment, [FileInfoByPath] returns the
    first entity of the root listing with that name, whatever follows it
    in the listing, with the normal form of the path as its [Path] and
    everything else as listed. *)
Theorem FileInfoByPath_first_match (fuel : nat) (p : PanClient P)
        (driveId pathStr segment : string)
        (l : FileList) (e : FileEntity) (s s1 : St P VS) :
  Go.IsAbs pathStr = true ->
  normalised pathStr <> "/" ->
  Go.Split (normalised pathStr) PathSeparator = ["" ; segment] ->
  FileListGetAll (S fuel) p
    (mkFileListParam "" "" driveId DefaultRootParentFileId 0 "") s
  = (Done (Some l, None), s1) ->
  firstNamed segment l = Some e ->
  FileInfoByPath (S (S (S fuel))) p driveId pathStr s
  = (Done (Some (setPath (normalised pathStr) e), None), s1).
Proof.
  intros Habs Hroot Hsplit Hlist Hsome.
  unfold FileInfoByPath. fold (normalised pathStr).
  assert (Hp0 : (if (pathStr =? "")%string then "/" else pathStr) = pathStr).
  { destruct pathStr; [discriminate|reflexivity]. }
  rewrite Hp0, Habs. cbn [negb].
  apply String.eqb_neq in Hroot. rewrite Hroot, Hsplit.
  cbn [Go.index Z.ltb Z.compare Z.to_nat nth_error String.eqb negb].
  rewrite (bind_Done P VS _ _ _ _ _
             (eq_trans (getFileInfoByPath_first_segment (S fuel) p driveId segment
                          [] l s s1 Hlist)
                       ltac:(rewrite Hsome; reflexivity))).
  reflexivity.
Qed.

End MoreResolver.

(** ** The tree walker *)

Section MoreWalker.

Variable P : Platform.
Variable VS : Type.

Lemma FileInfoByPath_entity_when_no_error (fuel : nat) (p : PanClient P)
      (driveId pathStr : string) (s s' : St P VS) (fi : option FileEntity) :
  FileInfoByPath fuel p driveId pathStr s = (Done (fi, None), s') ->
  exists e, fi = Some e.
Proof.
  unfold FileInfoByPath.
  destruct (negb (Go.IsAbs _)); [discriminate|].
  assert (Hres : forall pathStr' pathSlice,
             bind (getFileInfoByPath fuel p driveId 0 pathSlice None)
               (fun x => let '(fileInfo, error) := x in
                         ret (option_map (setPath pathStr') fileInfo, error)) s
             = (Done (fi, None), s') -> exists e, fi = Some e).
  { intros pathStr' pathSlice. unfold bind.
    destruct (getFileInfoByPath fuel p driveId 0 pathSlice None s)
      as [[[fi0 err0]| |] s1] eqn:E; try discriminate.
    apply getFileInfoByPath_shape in E. intros H. inversion H. subst.
    destruct E as [[Hfi _]|[_ Herr]]; [|discriminate].
    destruct fi0 as [e0|]; [|contradiction]. eexists. reflexivity. }
  destruct (_ =? "/")%string; [apply Hres|].
  destruct (Go.index _ 0); [|discriminate].
  destruct (negb _); [discriminate|apply Hres].
Qed.

(** X16: when the start path does not resolve, the walk calls the
    visitor once, at depth 0 with the start path, no entity and the error
    of the resolver, sends nothing after that, and returns nil whatever
    the visitor answers. *)
Theorem walk_of_an_unresolved_path (fuel : nat) (p : PanClient P)
        (driveId path : string) (h : HandleFileDirectoryFunc P VS)
        (s s1 : St P VS) (fi : option FileEntity) (e : ApiError P) :
  FileInfoByPath fuel p driveId path s = (Done (fi, Some e), s1) ->
  let call := EvHandle 0 path None (Some e) in
  let s2 := mkSt (world s1) (snd (h 0 path None (Some e) (vstate s1)))
              (trace s1 ++ [call]) in
  FilesDirectoriesRecurseList fuel p driveId path (Some h) s = (Done None, s2)
  /\ visits (trace s2) = visits (trace s) ++ [call]
  /\ FilesDirectoriesRecurseList fuel p driveId path None s = (Done None, s1).
Proof.
  intros Hres call s2.
  pose proof (Quiet_FileInfoByPath P VS fuel p driveId path s) as [_ Hq].
  rewrite Hres in Hq. cbn [snd] in Hq.
  split; [|split].
  - unfold FilesDirectoriesRecurseList. rewrite (bind_Done P VS _ _ _ _ _ Hres).
    cbn [handleIfSet]. unfold bind, callHandle.
    destruct (h 0 path None (Some e) (vstate s1)) as [b v']. reflexivity.
  - subst s2 call. cbn [trace]. now rewrite visits_snoc_handle, Hq.
  - unfold FilesDirectoriesRecurseList. rewrite (bind_Done P VS _ _ _ _ _ Hres).
    reflexivity.
Qed.

Lemma handleIfSet_Done (h : option (HandleFileDirectoryFunc P VS)) ok d pth fd err
      (s : St P VS) :
  exists b s', handleIfSet h ok d pth fd err s = (Done b, s').
Proof.
  destruct h as [hf|]; cbn [handleIfSet].
  - unfold callHandle. destruct (hf d pth fd err (vstate s)). eauto.
  - eexists. eexists. reflexivity.
Qed.

Lemma recurseLoop_no_panic (h : option (HandleFileDirectoryFunc P VS))
      (descend : FileEntity -> FileList -> M P VS (bool * FileList))
      (folderInfo : FileEntity) (depth : Z) :
  (forall fi fld s, fst (descend fi fld s) <> Panic) ->
  forall (r : FileList),
    Forall (fun x => x <> None) r ->
    forall (fld : FileList) (s : St P VS),
      fst (recurseLoop descend folderInfo depth h r fld s) <> Panic.
Proof.
  intros Hd. induction 1 as [|[fi|] r Hx _ IH]; intros fld s; cbn [recurseLoop].
  - discriminate.
  - match goal with |- context [handleIfSet h true ?d ?pth ?fd ?err] =>
      destruct (handleIfSet_Done h true d pth fd err s) as (b & s0 & Hcall) end.
    unfold bind at 1.
    match goal with |- context [IsFolder ?x] => destruct (IsFolder x) end.
    + rewrite (bind_Done P VS _ _ _ _ _ Hcall).
      match goal with |- context [descend ?a ?b s0] =>
        pose proof (Hd a b s0) as Hnp;
        destruct (descend a b s0) as [[[ok fld1]| |] s1] end;
        [|now contradiction Hnp|discriminate].
      destruct (negb ok); [discriminate|apply IH].
    + rewrite (bind_Done P VS _ _ _ _ _ Hcall). cbn [ret].
      destruct (negb b); [discriminate|apply IH].
  - contradiction.
Qed.

Lemma recurseList_no_panic (h : option (HandleFileDirectoryFunc P VS))
      (fuel : nat) (p : PanClient P) (driveId : string) :
  forall folderInfo depth fld (s : St P VS),
    fst (recurseList fuel p driveId folderInfo depth h fld s) <> Panic.
Proof.
  induction fuel as [|fuel IH]; intros folderInfo depth fld s; cbn [recurseList];
    [discriminate|].
  pose proof (FileListGetAll_no_panic P VS fuel p
                (mkFileListParam "" "" driveId (FileId folderInfo) 0 "") s) as Hnp.
  unfold bind at 1.
  destruct (FileListGetAll fuel p _ s) as [[[r e]| |] s1] eqn:E;
    [|now contradiction Hnp|discriminate].
  pose proof (FileListGetAll_error_is_nil P VS _ _ _ _ _ _ _ E). subst e.
  destruct (FileListGetAll_present P VS _ _ _ _ _ _ _ E) as (l & El & Hl).
  subst r. apply recurseLoop_no_panic; [|exact Hl].
  intros fi fld0 s0. apply IH.
Qed.

(** X17: [FilesDirectoriesRecurseList] never panics, whatever the path,
    the visitor and the answers of the remote side: the entity it
    inspects after a resolution without error is never nil, and no listed
    entry it writes a path into is nil.  (A Go slice has at most
    2^63 - 1 elements.) *)
Theorem walk_never_panics (fuel : nat) (p : PanClient P)
        (driveId path : string) (h : option (HandleFileDirectoryFunc P VS))
        (s : St P VS) :
  Go.len (Go.Split (normalised path) PathSeparator) <= Go.max_int64 ->
  fst (FilesDirectoriesRecurseList fuel p driveId path h s) <> Panic.
Proof.
  intros Hlen.
  pose proof (FileInfoByPath_never_panics_aux P VS fuel p driveId path s Hlen) as Hnp.
  unfold FilesDirectoriesRecurseList. unfold bind at 1.
  destruct (FileInfoByPath fuel p driveId path s) as [[[fi [e|]]| |] s1] eqn:E;
    [| |now contradiction Hnp|discriminate].
  - destruct (handleIfSet_Done h true 0 path None (Some e) s1) as (b & s2 & Hc).
    rewrite (bind_Done P VS _ _ _ _ _ Hc). discriminate.
  - destruct (FileInfoByPath_entity_when_no_error _ _ _ _ _ _ _ E) as (t & Ht).
    subst fi.
    destruct (handleIfSet_Done h true 0 path (Some t) None s1) as (b & s2 & Hc).
    destruct (IsFolder t); rewrite (bind_Done P VS _ _ _ _ _ Hc);
      [|discriminate].
    pose proof (recurseList_no_panic h fuel p driveId t 1 [] s2) as Hr.
    unfold bind.
    destruct (recurseList fuel p driveId t 1 h [] s2) as [[[ok fld]| |] s3];
      [|now contradiction Hr|discriminate].
    destruct (negb ok); discriminate.
Qed.

Lemma callHandle_run (h : HandleFileDirectoryFunc P VS) d pth fd err (s : St P VS) :
  callHandle h d pth fd err s
  = (Done (fst (h d pth fd err (vstate s))),
     mkSt (world s) (snd (h d pth fd err (vstate s)))
       (trace s ++ [EvHandle d pth fd err])).
Proof. unfold callHandle. destruct (h d pth fd err (vstate s)). reflexivity. Qed.

Lemma recurseList_stops_at_a_file (f : nat) (p : PanClient P) (driveId : string)
      (h : HandleFileDirectoryFunc P VS) (depth : Z) (s s2 : St P VS)
      (target fi : FileEntity) (rest fld : FileList) :
  FileListGetAll f p (mkFileListParam "" "" driveId (FileId target) 0 "") s
  = (Done (Some (Some fi :: rest), None), s2) ->
  IsFolder fi = false ->
  let child := setPath (joinPath (Path target) (FileName fi)) fi in
  fst (h depth (Path child) (Some child) None (vstate s2)) = false ->
  recurseList (S f) p driveId target depth (Some h) fld s
  = (Done (false, fld ++ [Some child]),
     mkSt (world s2) (snd (h depth (Path child) (Some child) None (vstate s2)))
       (trace s2 ++ [EvHandle depth (Path child) (Some child) None])).
Proof.
  intros Hlist Hfile child Hfalse.
  cbn [recurseList]. rewrite (bind_Done P VS _ _ _ _ _ Hlist).
  cbn [recurseLoop].
  change (Go.ReplaceAll (Path target ++ PathSeparator ++ FileName fi)%string
            "//" "/") with (joinPath (Path target) (FileName fi)).
  fold child. change (IsFolder child) with (IsFolder fi). rewrite Hfile.
  cbn [handleIfSet].
  rewrite (bind_Done P VS _ _ _ _ _
             (bind_Done_eq P VS _ _ _ _ _ _ _
                (callHandle_run h depth (Path child) (Some child) None s2)
                eq_refl)).
  rewrite Hfalse. reflexivity.
Qed.

(** X18: when the first entry listed in the start folder is not a folder
    and the visitor answers [false] for it, the walk ends there: nothing
    is requested or visited after that call, and the result is nil. *)
Theorem walk_stops_at_a_file (f : nat) (p : PanClient P) (driveId path : string)
        (h : HandleFileDirectoryFunc P VS) (s s1 s2 : St P VS)
        (target fi : FileEntity) (rest : FileList) :
  FileInfoByPath (S f) p driveId path s = (Done (Some target, None), s1) ->
  IsFolder target = true ->
  let call0 := EvHandle 0 path (Some target) None in
  let s1' := mkSt (world s1) (snd (h 0 path (Some target) None (vstate s1)))
               (trace s1 ++ [call0]) in
  FileListGetAll f p (mkFileListParam "" "" driveId (FileId target) 0 "") s1'
  = (Done (Some (Some fi :: rest), None), s2) ->
  IsFolder fi = false ->
  let child := setPath (joinPath (Path target) (FileName fi)) fi in
  let call1 := EvHandle 1 (Path child) (Some child) None in
  fst (h 1 (Path child) (Some child) None (vstate s2)) = false ->
  exists s3,
    FilesDirectoriesRecurseList (S f) p driveId path (Some h) s = (Done None, s3)
    /\ trace s3 = trace s2 ++ [call1]
    /\ world s3 = world s2
    /\ visits (trace s3) = visits (trace s) ++ [call0; call1].
Proof.
  intros Hres Hfolder call0 s1' Hlist Hfile child call1 Hfalse.
  pose proof (Quiet_FileInfoByPath P VS (S f) p driveId path s) as [_ Hq].
  rewrite Hres in Hq. cbn [snd] in Hq.
  pose proof (Quiet_FileListGetAll P VS f p
                (mkFileListParam "" "" driveId (FileId target) 0 "") s1')
    as [_ Hq2].
  rewrite Hlist in Hq2. cbn [snd] in Hq2.
  pose proof (recurseList_stops_at_a_file f p driveId h 1 s1' s2 target fi rest []
                Hlist Hfile Hfalse) as Hrun.
  eexists. split; [|split; [|split]].
  - unfold FilesDirectoriesRecurseList. rewrite (bind_Done P VS _ _ _ _ _ Hres).
    rewrite Hfolder. cbn [handleIfSet].
    rewrite (bind_Done P VS _ _ _ _ _ (callHandle_run h 0 path (Some target) None s1)).
    fold call0. fold s1'.
    rewrite (bind_Done P VS _ _ _ _ _ Hrun). reflexivity.
  - reflexivity.
  - reflexivity.
  - subst s1' call0 call1 child. cbn [trace] in *.
    rewrite visits_snoc_handle, Hq2, visits_snoc_handle, Hq, <- app_assoc.
    reflexivity.
Qed.

Lemma visitsBelow_preorder (t : Tree) :
  forall (d : Z) (pth : string),
    map snd (visitsBelow d pth t) = preorder pth t.
Proof.
  induction t as [e kids IH] using Tree_nested_ind. intros d pth.
  cbn [visitsBelow preorder map snd]. f_equal.
  generalize (Go.add64 d 1) as d'. generalize (joinPath pth (FileName e)) as q.
  induction IH as [|k kids Hk _ IHk]; intros q d'; cbn [flat_map].
  - reflexivity.
  - now rewrite map_app, Hk, IHk.
Qed.

(** X19: the walk of a folder below which the remote side serves a tree,
    with a visitor that always answers [true]: it returns the entities of
    the tree in depth-first pre-order, children in listing order, and
    calls the visitor for the start folder at depth 0 and then once for
    every returned entity, in the order of the result, with the path of
    the entity and its depth below the start folder. *)
Theorem walk_of_a_served_tree (inv : World P -> Prop) (pageFuel : nat)
        (p : PanClient P) (driveId : string)
        (h : HandleFileDirectoryFunc P VS)
        (fuel : nat) (path : string) (s s1 : St P VS) (target : FileEntity)
        (kids : list Tree) :
  (forall d pth fd err v, fst (h d pth fd err v) = true) ->
  FileInfoByPath fuel p driveId path s = (Done (Some target, None), s1) ->
  IsFolder target = true ->
  served P VS inv pageFuel p driveId (Node target kids) ->
  inv (world s1) ->
  (height (Node target kids) + pageFuel <= fuel)%nat ->
  exists s2 shown,
    shown = flat_map (visitsBelow 1 (Path target)) kids
    /\ FilesDirectoriesRecurseList fuel p driveId path (Some h) s
       = (Done (Some (map (fun c => Some (snd c)) shown)), s2)
    /\ map snd shown = flat_map (preorder (Path target)) kids
    /\ visits (trace s2)
       = visits (trace s)
           ++ EvHandle 0 path (Some target) None :: map handleCall shown.
Proof.
  intros Hc Hres Hfolder Hserved Hinv Hfuel.
  destruct (walk_of_a_served_folder P VS inv pageFuel p driveId (Some h) fuel
              path s s1 target kids Hc Hres Hfolder Hserved Hinv Hfuel)
    as (s2 & Hrun & Hvis).
  assert (Hpre : map snd (flat_map (visitsBelow 1 (Path target)) kids)
                 = flat_map (preorder (Path target)) kids).
  { clear. induction kids as [|k kids IH]; cbn [flat_map]; [reflexivity|].
    now rewrite map_app, visitsBelow_preorder, IH. }
  exists s2, (flat_map (visitsBelow 1 (Path target)) kids).
  split; [reflexivity|]. split; [|split; [exact Hpre|exact Hvis]].
  rewrite Hrun, <- Hpre, map_map. reflexivity.
Qed.

End MoreWalker.

(** ** The path of a child *)

Section MorePaths.

Lemma HasPrefix_double (a : ascii) (s : string) :
  Go.HasPrefix (String a s) "//"
  = Ascii.eqb Go.slash a
    && match s with
       | String b _ => Ascii.eqb Go.slash b
       | EmptyString => false
       end.
Proof.
  destruct s as [|b t]; cbn [Go.HasPrefix]; [reflexivity|].
  destruct t; cbn [Go.HasPrefix]; now rewrite andb_true_r.
Qed.

Lemma replace_no_double (s : string) :
  hasDoubleSlash s = false -> Go.replace_from "//" "/" O s = s.
Proof.
  induction s as [|a s IH]; [reflexivity|].
  intros H. cbn [Go.replace_from]. rewrite HasPrefix_double.
  assert (Hp : Ascii.eqb Go.slash a
               && match s with
                  | String b _ => Ascii.eqb Go.slash b
                  | EmptyString => false
                  end = false
               /\ hasDoubleSlash s = false).
  { destruct s as [|b t].
    - split; [apply andb_false_r|reflexivity].
    - cbn [hasDoubleSlash] in H. apply orb_false_iff in H. destruct H as [H1 H2].
      split; [|exact H2].
      now rewrite (Ascii.eqb_sym Go.slash a), (Ascii.eqb_sym Go.slash b). }
  destruct Hp as [Hp Hs]. rewrite Hp. f_equal. now apply IH.
Qed.

(** X20: the path [recurseList] writes into a listed entry.  For an
    entry of the root folder it is ["/"] and the name; for an entry of
    any folder it is the path of the folder, ["/"] and the name, as long
    as that string holds no two slashes in a row. *)
Theorem child_path (parent name : string) :
  (hasDoubleSlash name = false ->
   joinPath (Path NewFileEntityForRootDir) name = ("/" ++ name)%string)
  /\ (hasDoubleSlash (parent ++ "/" ++ name)%string = false ->
      joinPath parent name = (parent ++ "/" ++ name)%string).
Proof.
  split; intros H.
  - unfold joinPath, Go.ReplaceAll.
    change (Path NewFileEntityForRootDir ++ "/" ++ name)%string
      with (String "/"%char (String "/"%char name)).
    cbn [Go.replace_from]. rewrite HasPrefix_double.
    change (Ascii.eqb Go.slash "/"%char && Ascii.eqb Go.slash "/"%char) with true.
    cbv iota. cbn [String.length Nat.pred Go.replace_from String.append].
    f_equal. now apply replace_no_double.
  - unfold joinPath, Go.ReplaceAll. now apply replace_no_double.
Qed.

Lemma child_path_witness :
  hasDoubleSlash "report.txt" = false /\
  hasDoubleSlash ("/d/A" ++ "/" ++ "x")%string = false /\
  joinPath "/" "report.txt" = "/report.txt" /\
  joinPath "/d/A" "x" = "/d/A/x".
Proof.
  assert (H1 : hasDoubleSlash "report.txt" = false) by reflexivity.
  assert (H2 : hasDoubleSlash ("/d/A" ++ "/" ++ "x")%string = false) by reflexivity.
  split; [exact H1|]. split; [exact H2|].
  split.
  - exact (proj1 (child_path "/d/A" "report.txt") H1).
  - exact (proj2 (child_path "/d/A" "x") H2).
Defined.

End MorePaths.

(** ** [FileInfoById] *)

Section MoreById.

Variable P : Platform.
Variable VS : Type.
Variable UnmarshalFileEntity : Body P -> string + fileEntityResult.


(** X22: [FileInfoById] hands failures to its caller: a transport error
    comes back as [NewFailedApiError] of its text, an error envelope of
    the server comes back as it is, and both come with no entity. *)
Theorem FileInfoById_returns_the_failure (p : PanClient P)
        (driveId fileId : string) (s : St P VS)
        (r : string + Body P) (w' : World P) :
  Fetch P "POST" (API_URL P ++ "/v2/file/get")%string
    [("drive_id", JString driveId);
     ("file_id", JString (if (fileId =? "")%string then "root" else fileId))]
    (AddCommonHeader P [("authorization", GetAuthorizationStr P (webToken P p))])
    (world s) = (r, w') ->
  match r with
  | inl msg =>
      fst (FileInfoById UnmarshalFileEntity p driveId fileId s)
      = Done (None, Some (NewFailedApiError P msg))
  | inr body =>
      forall e, ParseCommonApiError P body = Some e ->
                fst (FileInfoById UnmarshalFileEntity p driveId fileId s)
                = Done (None, Some e)
  end.
Proof.
  intros H. unfold FileInfoById, bind, doFetch.
  change DefaultRootParentFileId with "root". rewrite H.
  destruct r as [msg|body]; [reflexivity|].
  intros e He. cbn. now rewrite He.
Qed.

End MoreById.

(** ** More runs on the small drive *)

Section MoreRuns.

Import Demo.
Import DemoMore.

Lemma FileList'_maps_the_records_witness :
  let run := fileListReq client (listing "d1") (start Up) in
  let flr := mkFileListResultWire
               [Some (item "a1" "A" "folder" "d1" 0);
                Some (item "b1" "B" "file" "d1" 20)] "" in
  run = (Done (sent "d1", (Some flr, None)), snd run) /\
  fst (FileList' client (listing "d1") (start Up))
  = Done (sent "d1",
          (Some (mkFileListResult
                   [Some (entity "a1" "A" "folder" "d1" 0);
                    Some (entity "b1" "B" "file" "d1" 20)] ""), None)).
Proof.
  intros run flr.
  assert (H : run = (Done (sent "d1", (Some flr, None)), snd run)) by reflexivity.
  split; [exact H|].
  rewrite (proj1 (FileList'_maps_the_records drive nat client (listing "d1")
                    (sent "d1") flr (start Up) (snd run) H)).
  reflexivity.
Defined.

Lemma FileListGetAll_result_is_present_witness :
  let run := FileListGetAll 2 client (listing "g1") (start Up) in
  run = (Done (Some bigListing, None), snd run) /\
  (@None apiError = None /\
   exists l, Some bigListing = Some l /\ Forall (fun x => x <> None) l).
Proof.
  intros run.
  assert (H : run = (Done (Some bigListing, None), snd run)) by reflexivity.
  split; [exact H|].
  exact (FileListGetAll_result_is_present drive nat 2 client (listing "g1")
           (start Up) (snd run) (Some bigListing) None H).
Defined.

Lemma FileListGetAll_concatenates_pages_witness :
  let ip := mkFileListParam "updated_at" "DESC" "drive" "g1" 100 "" in
  let ip' := mkFileListParam "updated_at" "DESC" "drive" "g1" 100 "m1" in
  let first := mkFileListResult [Some eOne; Some eTwo] "m1" in
  let second := mkFileListResult [Some eThree] "" in
  let s1 := snd (FileList' client (firstParam (listing "g1")) (start Up)) in
  let s2 := snd (FileList' client ip' s1) in
  FileList' client (firstParam (listing "g1")) (start Up)
  = (Done (ip, (Some first, None)), s1) /\
  Pages client ip first s1 [fl_FileList second] s2 /\
  (1 <= 1)%nat /\
  FileListGetAll 1 client (listing "g1") (start Up)
  = (Done (Some bigListing, None), s2) /\
  List.length (requests (trace s2)) = 2%nat.
Proof.
  intros ip ip' first second s1 s2.
  assert (H1 : FileList' client (firstParam (listing "g1")) (start Up)
               = (Done (ip, (Some first, None)), s1)) by reflexivity.
  assert (H2 : Pages client ip first s1 [fl_FileList second] s2).
  { apply (Pages_more client ip first s1 ip' second s2 [] s2).
    - discriminate.
    - reflexivity.
    - apply Pages_last. reflexivity. }
  assert (H3 : (1 <= 1)%nat) by lia.
  split; [exact H1|]. split; [exact H2|]. split; [exact H3|].
  exact (FileListGetAll_concatenates_pages drive nat 1 client (listing "g1") ip
           first [fl_FileList second] (start Up) s1 s2 H1 H2 H3).
Defined.

Lemma FileListGetAll_keeps_pages_before_failure_witness :
  let ip := mkFileListParam "updated_at" "DESC" "drive" "g1" 100 "" in
  let ip' := mkFileListParam "updated_at" "DESC" "drive" "g1" 100 "m1" in
  let first := mkFileListResult [Some eOne; Some eTwo] "m1" in
  let e := mkApiError 999 "dial tcp: connection refused" in
  let s1 := snd (FileList' client (firstParam (listing "g1"))
                   (start (DownAfter 1))) in
  let s2 := snd (fileListReq client ip' s1) in
  FileList' client (firstParam (listing "g1")) (start (DownAfter 1))
  = (Done (ip, (Some first, None)), s1) /\
  NextMarker first <> "" /\
  fileListReq client (setMarker (NextMarker first) ip) s1
  = (Done (ip', (None, Some e)), s2) /\
  FileListGetAll 1 client (listing "g1") (start (DownAfter 1))
  = (Done (Some [Some eOne; Some eTwo], None), s2).
Proof.
  intros ip ip' first e s1 s2.
  assert (H1 : FileList' client (firstParam (listing "g1")) (start (DownAfter 1))
               = (Done (ip, (Some first, None)), s1)) by reflexivity.
  assert (H2 : NextMarker first <> "") by discriminate.
  assert (H3 : fileListReq client (setMarker (NextMarker first) ip) s1
               = (Done (ip', (None, Some e)), s2)) by reflexivity.
  split; [exact H1|]. split; [exact H2|]. split; [exact H3|].
  exact (FileListGetAll_keeps_pages_before_failure drive nat 0 client
           (listing "g1") ip ip' first e (start (DownAfter 1)) s1 s2 H1 H2 H3).
Defined.

Lemma Count_of_a_listing_witness :
  let run := FileListGetAll 2 client (listing "root") (start Up) in
  run = (Done (Some rootListing, None), snd run) /\
  Go.len rootListing <= Go.max_int64 /\
  Count rootListing = (0, 3) /\
  fst (Count rootListing) + snd (Count rootListing) = 3.
Proof.
  intros run.
  assert (H1 : run = (Done (Some rootListing, None), snd run)) by reflexivity.
  assert (H2 : Go.len rootListing <= Go.max_int64) by (vm_compute; discriminate).
  split; [exact H1|]. split; [exact H2|]. split; [reflexivity|].
  exact (Count_of_a_listing drive nat 2 client (listing "root") (start Up)
           (snd run) rootListing None H1 H2).
Defined.

Lemma FileInfoByPath_entity_or_error_witness :
  let run := FileInfoByPath 3 client "drive" "/nope" (start Up) in
  run = (Done (None, Some (fileNotFound drive)), snd run) /\
  ((exists e : FileEntity, None = Some e /\ Some (fileNotFound drive) = None)
   \/ (@None FileEntity = None
       /\ (Some (fileNotFound drive) = Some (notAbsolute drive)
           \/ Some (fileNotFound drive) = Some (fileNotFound drive)))).
Proof.
  intros run.
  assert (H : run = (Done (None, Some (fileNotFound drive)), snd run))
    by reflexivity.
  split; [exact H|].
  exact (FileInfoByPath_entity_or_error drive nat 3 client "drive" "/nope"
           (start Up) (snd run) None (Some (fileNotFound drive)) H).
Defined.

Lemma FileInfoByPath_never_panics_witness :
  Go.len (Go.Split (normalised "/d/A/x") PathSeparator) <= Go.max_int64 /\
  fst (FileInfoByPath 2 client "drive" "/d/A/x" (start (DownAfter 1))) <> Panic.
Proof.
  assert (H : Go.len (Go.Split (normalised "/d/A/x") PathSeparator)
              <= Go.max_int64) by (vm_compute; discriminate).
  split; [exact H|].
  exact (proj1 (FileInfoByPath_never_panics drive nat 2 client "drive" "/d/A/x"
                  (start (DownAfter 1)) H)).
Defined.

Lemma FileInfoByPath_path_is_normal_witness :
  let run := FileInfoByPath 4 client "drive" "/d/../big/./three/" (start Up) in
  run = (Done (Some (setPath "/big/three" eThree), None), snd run) /\
  Path (setPath "/big/three" eThree) = "/big/three" /\
  Go.IsAbs (Path (setPath "/big/three" eThree)) = true.
Proof.
  intros run.
  assert (H : run = (Done (Some (setPath "/big/three" eThree), None), snd run))
    by reflexivity.
  split; [exact H|].
  exact (FileInfoByPath_path_is_normal drive nat 4 client "drive"
           "/d/../big/./three/" (start Up) (snd run)
           (setPath "/big/three" eThree) None H).
Defined.

Lemma FileInfoByPath_not_found_witness :
  let run := FileListGetAll 1 client (listing "root") (start Up) in
  Go.IsAbs "/nope/deeper" = true /\
  normalised "/nope/deeper" <> "/" /\
  Go.Split (normalised "/nope/deeper") PathSeparator = ["" ; "nope"; "deeper"] /\
  run = (Done (Some rootListing, None), snd run) /\
  firstNamed "nope" rootListing = None /\
  FileInfoByPath 3 client "drive" "/nope/deeper" (start Up)
  = (Done (None, Some (mkApiError 12 "文件不存在")), snd run).
Proof.
  intros run.
  assert (H1 : Go.IsAbs "/nope/deeper" = true) by reflexivity.
  assert (H2 : normalised "/nope/deeper" <> "/") by discriminate.
  assert (H3 : Go.Split (normalised "/nope/deeper") PathSeparator
               = ["" ; "nope"; "deeper"]) by reflexivity.
  assert (H4 : run = (Done (Some rootListing, None), snd run)) by reflexivity.
  assert (H5 : firstNamed "nope" rootListing = None) by reflexivity.
  split; [exact H1|]. split; [exact H2|]. split; [exact H3|].
  split; [exact H4|]. split; [exact H5|].
  exact (FileInfoByPath_not_found drive nat 1 client "drive" "/nope/deeper" "nope"
           ["deeper"] rootListing (start Up) (snd run) H1 H2 H3 H4 H5).
Defined.

Lemma FileInfoByPath_first_match_witness :
  let run := FileListGetAll 1 client (listing "root") (start Up) in
  Go.IsAbs "/big/" = true /\
  normalised "/big/" <> "/" /\
  Go.Split (normalised "/big/") PathSeparator = ["" ; "big"] /\
  run = (Done (Some rootListing, None), snd run) /\
  firstNamed "big" rootListing = Some eBig /\
  FileInfoByPath 3 client "drive" "/big/" (start Up)
  = (Done (Some (setPath "/big" eBig), None), snd run).
Proof.
  intros run.
  assert (H1 : Go.IsAbs "/big/" = true) by reflexivity.
  assert (H2 : normalised "/big/" <> "/") by discriminate.
  assert (H3 : Go.Split (normalised "/big/") PathSeparator = ["" ; "big"])
    by reflexivity.
  assert (H4 : run = (Done (Some rootListing, None), snd run)) by reflexivity.
  assert (H5 : firstNamed "big" rootListing = Some eBig) by reflexivity.
  split; [exact H1|]. split; [exact H2|]. split; [exact H3|].
  split; [exact H4|]. split; [exact H5|].
  exact (FileInfoByPath_first_match drive nat 0 client "drive" "/big/" "big"
           rootListing eBig (start Up) (snd run) H1 H2 H3 H4 H5).
Defined.

Lemma walk_of_an_unresolved_path_witness :
  let run := FileInfoByPath 3 client "drive" "/nope" (start Up) in
  let e := mkApiError 12 "文件不存在" in
  run = (Done (None, Some e), snd run) /\
  fst (FilesDirectoriesRecurseList 3 client "drive" "/nope" (Some (stopAt 1))
         (start Up)) = Done None /\
  visits (trace (snd (FilesDirectoriesRecurseList 3 client "drive" "/nope"
                        (Some (stopAt 1)) (start Up))))
  = [EvHandle (P := drive) 0 "/nope" None (Some e)].
Proof.
  intros run e.
  assert (H : run = (Done (None, Some e), snd run)) by reflexivity.
  split; [exact H|].
  destruct (walk_of_an_unresolved_path drive nat 3 client "drive" "/nope"
              (stopAt 1) (start Up) (snd run) None e H) as [Hrun [Hvis _]].
  rewrite Hrun. split; [reflexivity|exact Hvis].
Defined.

Lemma walk_never_panics_witness :
  Go.len (Go.Split (normalised "/d") PathSeparator) <= Go.max_int64 /\
  fst (FilesDirectoriesRecurseList 2 client "drive" "/d" (Some (stopAt 3))
         (start (DownAfter 2))) <> Panic.
Proof.
  assert (H : Go.len (Go.Split (normalised "/d") PathSeparator) <= Go.max_int64)
    by (vm_compute; discriminate).
  split; [exact H|].
  exact (walk_never_panics drive nat 2 client "drive" "/d" (Some (stopAt 3))
           (start (DownAfter 2)) H).
Defined.

Lemma walk_stops_at_a_file_witness :
  let s1 := snd (FileInfoByPath 3 client "drive" "/big" (start Up)) in
  let target := setPath "/big" eBig in
  let s1' := mkSt (P := drive) (world s1) 1%nat
               (trace s1 ++ [EvHandle 0 "/big" (Some target) None]) in
  let s2 := snd (FileListGetAll 2 client (listing "g1") s1') in
  let child := setPath "/big/one" eOne in
  FileInfoByPath 3 client "drive" "/big" (start Up)
  = (Done (Some target, None), s1) /\
  IsFolder target = true /\
  FileListGetAll 2 client (listing "g1") s1'
  = (Done (Some (Some eOne :: [Some eTwo; Some eThree]), None), s2) /\
  IsFolder eOne = false /\
  fst (stopAt 2 1 "/big/one" (Some child) None (vstate s2)) = false /\
  exists s3,
    FilesDirectoriesRecurseList 3 client "drive" "/big" (Some (stopAt 2)) (start Up)
    = (Done None, s3)
    /\ trace s3 = trace s2 ++ [EvHandle 1 "/big/one" (Some child) None]
    /\ world s3 = world s2
    /\ visits (trace s3)
       = [EvHandle 0 "/big" (Some target) None;
          EvHandle 1 "/big/one" (Some child) None].
Proof.
  intros s1 target s1' s2 child.
  assert (H1 : FileInfoByPath 3 client "drive" "/big" (start Up)
               = (Done (Some target, None), s1)) by reflexivity.
  assert (H2 : IsFolder target = true) by reflexivity.
  assert (H3 : FileListGetAll 2 client (listing "g1") s1'
               = (Done (Some (Some eOne :: [Some eTwo; Some eThree]), None), s2))
    by reflexivity.
  assert (H4 : IsFolder eOne = false) by reflexivity.
  assert (H5 : fst (stopAt 2 1 "/big/one" (Some child) None (vstate s2)) = false)
    by reflexivity.
  split; [exact H1|]. split; [exact H2|]. split; [exact H3|].
  split; [exact H4|]. split; [exact H5|].
  exact (walk_stops_at_a_file drive nat 2 client "drive" "/big" (stopAt 2)
           (start Up) s1 s2 target eOne [Some eTwo; Some eThree]
           H1 H2 H3 H4 H5).
Defined.

Lemma walk_of_a_served_tree_witness :
  let s1 := snd (FileInfoByPath 3 client "drive" "/d" (start Up)) in
  (forall d pth fd err v, fst (goOn d pth fd err v) = true) /\
  FileInfoByPath 3 client "drive" "/d" (start Up) = (Done (Some ed, None), s1) /\
  IsFolder ed = true /\
  (height (Node ed [treeA; treeB]) + 0 <= 3)%nat /\
  exists s2 shown,
    shown = [(1, eA); (2, ex); (1, eB)]
    /\ FilesDirectoriesRecurseList 3 client "drive" "/d" (Some goOn) (start Up)
       = (Done (Some [Some eA; Some ex; Some eB]), s2)
    /\ map snd shown = [eA; ex; eB]
    /\ visits (trace s2)
       = [EvHandle 0 "/d" (Some ed) None;
          EvHandle 1 "/d/A" (Some eA) None;
          EvHandle 2 "/d/A/x" (Some ex) None;
          EvHandle 1 "/d/B" (Some eB) None].
Proof.
  intros s1.
  assert (H0 : forall d pth fd err v, fst (goOn d pth fd err v) = true)
    by reflexivity.
  assert (H1 : FileInfoByPath 3 client "drive" "/d" (start Up)
               = (Done (Some ed, None), s1)) by reflexivity.
  assert (H2 : IsFolder ed = true) by reflexivity.
  assert (H4 : linkUp (world s1)) by reflexivity.
  assert (H5 : (height (Node ed [treeA; treeB]) + 0 <= 3)%nat) by (cbn; lia).
  split; [exact H0|]. split; [exact H1|]. split; [exact H2|]. split; [exact H5|].
  destruct (walk_of_a_served_tree drive nat linkUp 0 client "drive" goOn 3 "/d"
              (start Up) s1 ed [treeA; treeB] H0 H1 H2 drive_serves_d H4 H5)
    as (s2 & shown & Hshown & Hrun & Hsnd & Hvis).
  subst shown. exists s2, [(1, eA); (2, ex); (1, eB)].
  split; [reflexivity|]. split; [exact Hrun|]. split; [reflexivity|exact Hvis].
Defined.

Lemma FileInfoById_returns_the_failure_witness :
  Fetch drive "POST" (API_URL drive ++ "/v2/file/get")%string
    [("drive_id", JString "drive"); ("file_id", JString "x1")]
    (AddCommonHeader drive
       [("authorization", GetAuthorizationStr drive (webToken drive client))])
    (DownAfter 0)
  = (inl "dial tcp: connection refused", DownAfter 0) /\
  fst (FileInfoById (P := drive) (VS := nat) noEntity client "drive" "x1"
         (start (DownAfter 0)))
  = Done (None, Some (mkApiError 999 "dial tcp: connection refused")).
Proof.
  assert (H : Fetch drive "POST" (API_URL drive ++ "/v2/file/get")%string
                [("drive_id", JString "drive");
                 ("file_id", JString (if ("x1" =? "")%string then "root" else "x1"))]
                (AddCommonHeader drive
                   [("authorization",
                     GetAuthorizationStr drive (webToken drive client))])
                (world (start (DownAfter 0)))
              = (inl "dial tcp: connection refused", DownAfter 0)) by reflexivity.
  split; [exact H|].
  exact (FileInfoById_returns_the_failure drive nat noEntity client "drive" "x1"
           (start (DownAfter 0)) (inl "dial tcp: connection refused")
           (DownAfter 0) H).
Defined.

End MoreRuns.

(** ** Files, folders and what [Count] counts *)

Section MoreKinds.

Lemma count_if_le (Q R : FileEntity -> bool) (fl : FileList) :
  (forall e, Q e = true -> R e = true) ->
  count_if Q fl <= count_if R fl.
Proof.
  intros H. induction fl as [|[e|] fl IH]; cbn [count_if].
  - lia.
  - specialize (H e). destruct (Q e), (R e); lia.
  - lia.
Qed.

Lemma count_if_ext (Q R : FileEntity -> bool) (fl : FileList) :
  Forall (fun x => match x with Some e => Q e = R e | None => True end) fl ->
  count_if Q fl = count_if R fl.
Proof.
  induction 1 as [|[e|] fl Hx _ IH]; cbn [count_if].
  - reflexivity.
  - rewrite Hx. lia.
  - lia.
Qed.

Lemma folder_is_no_file (e : FileEntity) : IsFolder e = true -> IsFile e = false.
Proof.
  unfold IsFolder, IsFile. intros H. apply String.eqb_eq in H. now rewrite H.
Qed.

(** X23: no entity is both a folder and a file, but one can be neither
    (its type is neither string).  [Count] takes everything that is not
    a folder for a file: its [fileN] is at least the number of entries
    for which [IsFile] holds, and equal to it when every entry is a
    folder or a file. *)
Theorem Count_files_and_IsFile (fl : FileList) :
  Go.len fl <= Go.max_int64 ->
  (forall e, IsFolder e && IsFile e = false)
  /\ count_if IsFile fl <= fst (Count fl)
  /\ (Forall (fun x => match x with
                       | Some e => IsFolder e || IsFile e = true
                       | None => True
                       end) fl ->
      fst (Count fl) = count_if IsFile fl).
Proof.
  intros Hlen.
  pose proof (count_if_bounds (fun f => negb (IsFolder f)) fl) as B1.
  pose proof (count_if_bounds IsFolder fl) as B2.
  assert (Hc : fst (Count fl) = count_others fl).
  { unfold Count. rewrite Count_from_exact; try lia.
    - reflexivity.
    - unfold count_others. lia.
    - unfold count_folders. lia. }
  split; [|split].
  - intros e. destruct (IsFolder e) eqn:E; [|reflexivity].
    now rewrite (folder_is_no_file e E).
  - rewrite Hc. unfold count_others. apply count_if_le.
    intros e He. destruct (IsFolder e) eqn:E; [|reflexivity].
    rewrite (folder_is_no_file e E) in He. discriminate.
  - intros Hall. rewrite Hc. unfold count_others. apply count_if_ext.
    eapply Forall_impl; [|exact Hall]. intros [e|]; [|trivial].
    cbn beta iota. destruct (IsFolder e) eqn:E.
    + intros _. now rewrite (folder_is_no_file e E).
    + cbn. intros ->. reflexivity.
Qed.

Lemma Count_files_and_IsFile_witness :
  let fl := [Some (sized "a" "file" 20); None; Some (sized "b" "folder" 0);
             Some (sized "c" "" 7)] in
  Go.len fl <= Go.max_int64 /\
  count_if IsFile fl = 1 /\ fst (Count fl) = 2 /\
  count_if IsFile fl <= fst (Count fl).
Proof.
  intros fl.
  assert (H : Go.len fl <= Go.max_int64) by (vm_compute; discriminate).
  split; [exact H|]. split; [reflexivity|]. split; [reflexivity|].
  exact (proj1 (proj2 (Count_files_and_IsFile fl H))).
Defined.

End MoreKinds.

(** ** The resolver comes to an end *)

Section MoreTermination.

Variable P : Platform.
Variable VS : Type.
Variable p : PanClient P.

(** Every listing ends within [pageFuel] turns of the page loop. *)
Variable pageFuel : nat.
Hypothesis pages_end :
  forall (fuel : nat) (param : FileListParam) (s : St P VS),
    (pageFuel <= fuel)%nat -> fst (FileListGetAll fuel p param s) <> OutOfFuel.

Lemma getFileInfoByPath_enough_fuel (driveId : string) (fuel : nat) :
  forall index pathSlice parentFileInfo (s : St P VS),
    Go.len pathSlice <= Go.max_int64 ->
    0 <= index <= Go.max_int64 ->
    (parentFileInfo = None -> index < Go.max_int64) ->
    Z.max (Go.len pathSlice - index) 0 + 1 + Z.of_nat pageFuel
      + (match parentFileInfo with None => 1 | Some _ => 0 end)
    <= Z.of_nat fuel ->
    fst (getFileInfoByPath fuel p driveId index pathSlice parentFileInfo s)
    <> OutOfFuel.
Proof.
  induction fuel as [|fuel IH];
    intros index pathSlice parentFileInfo s Hlen Hidx Hnone Hfuel.
  { exfalso. destruct parentFileInfo; lia. }
  cbn [getFileInfoByPath].
  destruct parentFileInfo as [parent|].
  - destruct (Go.len pathSlice <=? index) eqn:Ele; [discriminate|].
    apply Z.leb_gt in Ele.
    pose proof (FileListGetAll_no_panic P VS fuel p
                  (mkFileListParam "" "" driveId (FileId parent) 0 "") s) as Hnp.
    pose proof (pages_end fuel
                  (mkFileListParam "" "" driveId (FileId parent) 0 "") s
                  ltac:(lia)) as Hnf.
    unfold bind at 1.
    destruct (FileListGetAll fuel p _ s) as [[[r e]| |] s1] eqn:E;
      [|now contradiction Hnp|now contradiction Hnf].
    pose proof (FileListGetAll_error_is_nil P VS _ _ _ _ _ _ _ E). subst e.
    destruct (FileListGetAll_present P VS _ _ _ _ _ _ _ E) as (l & El & Hl).
    subst r. destruct l as [|x l]; [discriminate|].
    destruct (index_in_range pathSlice index ltac:(lia)) as (seg & Hseg).
    rewrite (scanChildren_firstNamed P VS _ _ _ _ _ Hseg Hl).
    destruct (firstNamed seg (x :: l)); [|discriminate].
    rewrite add64_succ by lia.
    apply IH; [exact Hlen|lia|discriminate|lia].
  - destruct ((index =? 0) && (Go.len pathSlice =? 1)); [discriminate|].
    specialize (Hnone eq_refl). rewrite add64_succ by lia.
    apply IH; [exact Hlen|lia|discriminate|lia].
Qed.

(** X24: when every listing ends, [FileInfoByPath] comes to an end for
    every path: it makes at most one call of itself per segment of the
    path, so fuel for the segments, two more calls and the pages of one
    listing is enough, and it ends by returning, not in a panic. *)
Theorem FileInfoByPath_ends (fuel : nat) (driveId pathStr : string)
        (s : St P VS) :
  Go.len (Go.Split (normalised pathStr) PathSeparator) <= Go.max_int64 ->
  Go.len (Go.Split (normalised pathStr) PathSeparator) + 2 + Z.of_nat pageFuel
  <= Z.of_nat fuel ->
  exists r s', FileInfoByPath fuel p driveId pathStr s = (Done r, s').
Proof.
  intros Hlen Hfuel.
  pose proof (FileInfoByPath_never_panics_aux P VS fuel p driveId pathStr s Hlen)
    as Hnp.
  assert (Hnf : fst (FileInfoByPath fuel p driveId pathStr s) <> OutOfFuel).
  { unfold FileInfoByPath. fold (normalised pathStr).
    destruct (negb (Go.IsAbs _)); [discriminate|].
    assert (Hres : forall pathSlice,
               Go.len pathSlice <= Go.max_int64 ->
               Go.len pathSlice + 2 + Z.of_nat pageFuel <= Z.of_nat fuel ->
               fst (bind (getFileInfoByPath fuel p driveId 0 pathSlice None)
                      (fun x => let '(fileInfo, error) := x in
                                ret (option_map (setPath (normalised pathStr))
                                       fileInfo, error)) s) <> OutOfFuel).
    { intros pathSlice Hl Hf. unfold bind.
      pose proof (getFileInfoByPath_enough_fuel driveId fuel 0 pathSlice None s Hl
                    ltac:(GoFacts.int64_consts; lia)
                    ltac:(intros _; GoFacts.int64_consts; lia)
                    ltac:(unfold Go.len in *; lia)) as H.
      destruct (getFileInfoByPath fuel p driveId 0 pathSlice None s)
        as [[[fi er]| |] s1]; [discriminate|discriminate|now contradiction H]. }
    pose proof (split_from_nonempty PathSeparator (normalised pathStr) O []) as Hne.
    fold (Go.Split (normalised pathStr) PathSeparator) in Hne.
    destruct (normalised pathStr =? "/")%string.
    - apply Hres.
      + GoFacts.int64_consts. cbn. lia.
      + destruct (Go.Split (normalised pathStr) PathSeparator);
          [contradiction|]. unfold Go.len in *. cbn [length] in *. lia.
    - destruct (Go.Split (normalised pathStr) PathSeparator) as [|first rest] eqn:Es;
        [contradiction|].
      cbn [Go.index Z.ltb Z.compare Z.to_nat nth_error].
      destruct (negb _); [discriminate|]. apply Hres; assumption. }
  destruct (FileInfoByPath fuel p driveId pathStr s) as [[r| |] s'];
    [eauto|now contradiction Hnp|now contradiction Hnf].
Qed.

End MoreTermination.

(** ** The marker of a page *)

Section MoreMarkers.

Variable P : Platform.
Variable VS : Type.

Lemma lookup_marker_listPostData (q : FileListParam) (parent : string) (limit : Z) :
  lookupField "marker" (listPostData q parent limit)
  = (if (Marker q =? "")%string then None else Some (JString (Marker q))).
Proof.
  unfold listPostData. rewrite len_str_pos.
  destruct (Marker q =? "")%string; reflexivity.
Qed.

(** The marker of the page [FileList] returns is empty, or it is the
    marker of a response that was fetched and decoded. *)
Lemma FileList'_marker (p : PanClient P) (q : FileListParam) (s : St P VS) :
  exists page s',
    FileList' p q s = (Done (withOrderDefaults q, (Some page, None)), s')
    /\ (NextMarker page = ""
        \/ exists url postData header body w' flr,
            Fetch P "POST" url postData header (world s) = (inr body, w')
            /\ lookupField "marker" postData
               = (if (Marker q =? "")%string then None
                  else Some (JString (Marker q)))
            /\ UnmarshalFileList P body = inr flr
            /\ NextMarker page = r_NextMarker flr).
Proof.
  unfold FileList', fileListReq, bind, doFetch.
  match goal with |- context [Fetch P ?a ?b ?c ?d ?e] =>
    destruct (Fetch P a b c d e) as [[err|body] w'] eqn:Ef end.
  - eexists. eexists. split; [reflexivity|]. left. reflexivity.
  - destruct (ParseCommonApiError P body) as [e|].
    + eexists. eexists. split; [reflexivity|]. left. reflexivity.
    + destruct (UnmarshalFileList P body) as [err|flr] eqn:Eu.
      * eexists. eexists. split; [reflexivity|]. left. reflexivity.
      * eexists. eexists. split; [reflexivity|]. right.
        do 6 eexists. split; [exact Ef|]. split; [|split; [exact Eu|reflexivity]].
        etransitivity; [apply lookup_marker_listPostData|].
        destruct q as [ob od did pid lim mk].
        cbn [OrderBy OrderDirection Marker].
        destruct (ob =? "")%string;
          cbn [setOrderBy OrderBy OrderDirection Marker];
          destruct (od =? "")%string; reflexivity.
Qed.

End MoreMarkers.

(** ** The listings of the small drive end *)

Section MoreRunsEnd.

Import Demo.
Import DemoMore.

(** A page of the small drive has a marker only when it is the first
    page of [/big]. *)
Lemma folder_page_marker (parent marker : string) :
  match folder_page parent marker with
  | ListJson r =>
      r_NextMarker r = "" \/ (r_NextMarker r = "m1" /\ marker = "")
  | _ => True
  end.
Proof.
  unfold folder_page.
  repeat match goal with
         | |- context [(?a =? ?b)%string] => destruct (String.eqb_spec a b)
         end; subst; cbn; auto.
Qed.

Lemma field_marker (d : PostData) (mk : string) :
  lookupField "marker" d
  = (if (mk =? "")%string then None else Some (JString mk)) ->
  field "marker" d = "" -> mk = "".
Proof.
  unfold lookupField, field.
  destruct (find (fun kv => (fst kv =? "marker")%string) d) as [[k [x|z|b]]|];
    cbn [option_map snd]; destruct (String.eqb_spec mk ""); try discriminate;
    try (intros; assumption).
  intros H E. inversion H. congruence.
Qed.

Lemma drive_FileList'_marker (q : FileListParam) (s : St drive nat) :
  exists page s',
    FileList' client q s = (Done (withOrderDefaults q, (Some page, None)), s')
    /\ (NextMarker page = "" \/ (NextMarker page = "m1" /\ Marker q = "")).
Proof.
  destruct (FileList'_marker drive nat client q s)
    as (page & s' & Hrun & [Hm|(url & pd & hdr & body & w' & flr & Hf & Hl & Hu & Hm)]).
  - exists page, s'. split; [exact Hrun|left; exact Hm].
  - exists page, s'. split; [exact Hrun|]. rewrite Hm.
    assert (Hb : body = folder_page (field "parent_file_id" pd) (field "marker" pd)).
    { cbn [Fetch drive] in Hf. unfold fetch in Hf.
      destruct (world s) as [|[|n]]; inversion Hf; reflexivity. }
    pose proof (folder_page_marker (field "parent_file_id" pd) (field "marker" pd))
      as Hp.
    rewrite <- Hb in Hp. cbn [UnmarshalFileList drive] in Hu.
    destruct body as [e|r|]; try discriminate. inversion Hu. subst r.
    destruct Hp as [Hp|[Hp Hmk]]; [left; exact Hp|right].
    split; [exact Hp|]. eapply field_marker; eauto.
Qed.

Lemma drive_pages_end (fuel : nat) (param : FileListParam) (s : St drive nat) :
  (1 <= fuel)%nat -> fst (FileListGetAll fuel client param s) <> OutOfFuel.
Proof.
  intros Hfuel. destruct fuel as [|fuel]; [lia|].
  unfold FileListGetAll.
  match goal with |- context [FileList' client ?q] =>
    destruct (drive_FileList'_marker q s) as (page & s1 & Hrun & Hm) end.
  rewrite (bind_Done drive nat _ _ _ _ _ Hrun).
  cbn [morePages].
  destruct Hm as [Hm|[Hm _]]; rewrite Hm; [discriminate|].
  cbn [Go.len_str String.length Z.of_nat Z.ltb Z.compare Pos.of_succ_nat
       Pos.succ].
  match goal with |- context [FileList' client ?q] =>
    destruct (drive_FileList'_marker q s1) as (page2 & s2 & Hrun2 & Hm2) end.
  rewrite (bind_Done drive nat _ _ _ _ _ Hrun2).
  destruct Hm2 as [Hm2|[_ Hm2]]; [|discriminate].
  destruct fuel; cbn [morePages]; rewrite Hm2; discriminate.
Qed.

Lemma FileInfoByPath_ends_witness :
  (forall (fuel : nat) (param : FileListParam) (s : St drive nat),
      (1 <= fuel)%nat -> fst (FileListGetAll fuel client param s) <> OutOfFuel) /\
  Go.len (Go.Split (normalised "/big/three") PathSeparator) <= Go.max_int64 /\
  Go.len (Go.Split (normalised "/big/three") PathSeparator) + 2 + Z.of_nat 1
  <= Z.of_nat 6 /\
  exists r s',
    FileInfoByPath 6 client "drive" "/big/three" (start (DownAfter 2)) = (Done r, s').
Proof.
  assert (H1 : Go.len (Go.Split (normalised "/big/three") PathSeparator)
               <= Go.max_int64) by (vm_compute; discriminate).
  assert (H2 : Go.len (Go.Split (normalised "/big/three") PathSeparator) + 2
               + Z.of_nat 1 <= Z.of_nat 6) by (vm_compute; discriminate).
  split; [exact drive_pages_end|]. split; [exact H1|]. split; [exact H2|].
  exact (FileInfoByPath_ends drive nat client 1 drive_pages_end 6 "drive"
           "/big/three" (start (DownAfter 2)) H1 H2).
Defined.

End MoreRunsEnd.

(** ** The root folder as the default parent *)

Section MoreDefaults.

Variable P : Platform.
Variable VS : Type.

Lemma fileListReq_root_default (p : PanClient P) (q : FileListParam) (s : St P VS) :
  fileListReq p (setParentFileId "" q) s
  = let '(o, s') := fileListReq p (setParentFileId DefaultRootParentFileId q) s in
    (match o with
     | Done (q', r) => Done (setParentFileId "" q', r)
     | Panic => Panic
     | OutOfFuel => OutOfFuel
     end, s').
Proof.
  destruct q as [ob od did pid lim mk].
  unfold fileListReq, bind, doFetch, setParentFileId, listPostData.
  cbn [OrderBy OrderDirection p_DriveId p_ParentFileId Limit Marker String.eqb
       DefaultRootParentFileId].
  destruct (ob =? "")%string;
    cbn [setOrderBy setOrderDirection OrderBy OrderDirection p_DriveId
           p_ParentFileId Limit Marker];
    destruct (od =? "")%string;
    cbn [setOrderBy setOrderDirection OrderBy OrderDirection p_DriveId
           p_ParentFileId Limit Marker];
    match goal with |- context [Fetch P ?a ?b ?c ?d ?e] =>
      destruct (Fetch P a b c d e) as [[err|body] w'] end;
    try reflexivity;
    match goal with |- context [ParseCommonApiError P ?b] =>
      destruct (ParseCommonApiError P b); [reflexivity|];
      destruct (UnmarshalFileList P b); reflexivity
    end.
Qed.

Lemma FileList'_root_default (p : PanClient P) (q : FileListParam) (s : St P VS) :
  FileList' p (setParentFileId "" q) s
  = let '(o, s') := FileList' p (setParentFileId DefaultRootParentFileId q) s in
    (match o with
     | Done (q', r) => Done (setParentFileId "" q', r)
     | Panic => Panic
     | OutOfFuel => OutOfFuel
     end, s').
Proof.
  unfold FileList', bind. rewrite fileListReq_root_default.
  destruct (fileListReq p (setParentFileId DefaultRootParentFileId q) s)
    as [[[q' [[flr|] [e|]]]| |] s1]; reflexivity.
Qed.

Lemma withOrderDefaults_setParentFileId (v : string) (q : FileListParam) :
  withOrderDefaults (setParentFileId v q)
  = setParentFileId v (withOrderDefaults q).
Proof.
  destruct q as [ob od did pid lim mk].
  unfold withOrderDefaults, setParentFileId. cbn.
  destruct (ob =? "")%string; cbn; destruct (od =? "")%string; reflexivity.
Qed.

Lemma morePages_root_default (fuel : nat) (p : PanClient P) :
  forall (q : FileListParam) result fileList (s : St P VS),
    morePages fuel p (setParentFileId "" q) result fileList s
    = morePages fuel p (setParentFileId DefaultRootParentFileId q) result fileList s.
Proof.
  induction fuel as [|fuel IH]; intros q result fileList s; cbn [morePages];
    destruct (0 <? Go.len_str (NextMarker result)); try reflexivity.
  unfold bind.
  change (setMarker (NextMarker result) (setParentFileId "" q))
    with (setParentFileId "" (setMarker (NextMarker result) q)).
  change (setMarker (NextMarker result) (setParentFileId DefaultRootParentFileId q))
    with (setParentFileId DefaultRootParentFileId (setMarker (NextMarker result) q)).
  rewrite FileList'_root_default.
  pose proof (FileList'_run P VS p
                (setParentFileId DefaultRootParentFileId
                   (setMarker (NextMarker result) q)) s)
    as (page & s1 & Hrun & _).
  rewrite Hrun.
  rewrite withOrderDefaults_setParentFileId.
  change (setParentFileId ""
            (setParentFileId DefaultRootParentFileId
               (withOrderDefaults (setMarker (NextMarker result) q))))
    with (setParentFileId "" (withOrderDefaults (setMarker (NextMarker result) q))).
  apply IH.
Qed.

(** X25: an empty parent id stands for the root folder: [FileListGetAll]
    with an empty [ParentFileId] sends the same requests and returns the
    same list, in the same final state, as with ["root"], page after
    page. *)
Theorem FileListGetAll_root_default (fuel : nat) (p : PanClient P)
        (q : FileListParam) (s : St P VS) :
  FileListGetAll fuel p (setParentFileId "" q) s
  = FileListGetAll fuel p (setParentFileId DefaultRootParentFileId q) s.
Proof.
  unfold FileListGetAll, bind.
  cbn [setParentFileId OrderBy OrderDirection p_DriveId p_ParentFileId Limit
       Marker].
  set (q0 := if Limit q <=? 0 then setLimit 100 q else q).
  replace (if Limit q <=? 0
           then setLimit 100 (mkFileListParam (OrderBy q) (OrderDirection q)
                                (p_DriveId q) "" (Limit q) (Marker q))
           else mkFileListParam (OrderBy q) (OrderDirection q) (p_DriveId q) ""
                  (Limit q) (Marker q))
    with (setParentFileId "" q0)
    by (subst q0; destruct (Limit q <=? 0); reflexivity).
  replace (if Limit q <=? 0
           then setLimit 100 (mkFileListParam (OrderBy q) (OrderDirection q)
                                (p_DriveId q) DefaultRootParentFileId (Limit q)
                                (Marker q))
           else mkFileListParam (OrderBy q) (OrderDirection q) (p_DriveId q)
                  DefaultRootParentFileId (Limit q) (Marker q))
    with (setParentFileId DefaultRootParentFileId q0)
    by (subst q0; destruct (Limit q <=? 0); reflexivity).
  rewrite FileList'_root_default.
  pose proof (FileList'_run P VS p (setParentFileId DefaultRootParentFileId q0) s)
    as (page & s1 & Hrun & _).
  rewrite Hrun.
  rewrite withOrderDefaults_setParentFileId.
  change (setParentFileId ""
            (setParentFileId DefaultRootParentFileId (withOrderDefaults q0)))
    with (setParentFileId "" (withOrderDefaults q0)).
  apply morePages_root_default.
Qed.

End MoreDefaults.

(** ** What the visitor is called with *)

Section MoreCalls.

Variable P : Platform.
Variable VS : Type.








End MoreCalls.
